(** * A shallow embedding of [hw_7.py]: the address-book assistant.

    Python values are modelled as follows.
    - [str]: a Rocq [string], i.e. a sequence of code points below 256
      (the Latin-1 range).  On that range the regular-expression class
      [\d] is exactly ['0'..'9'] and [str.isspace] is the set given by
      [is_space] below.
    - [int]: [Z].
    - Objects that are mutated in place ([Record], [AddressBook]) are
      threaded through a state-and-exception monad [St]; an exception
      leaves the state as it was when the exception was raised.
    - [datetime.date]: a triple of integers, built only through
      [date_new], which performs the range checks of the constructor.
    - [datetime.today()]: the clock is read once per query; the date it
      yields is an explicit argument [today]. *)

From Stdlib Require Import ZArith List Bool Ascii String Lia DecimalString.
Import ListNotations.

Local Open Scope string_scope.
Local Open Scope Z_scope.

(** ** Exceptions and results *)

Inductive exn : Type :=
| ValueError (msg : string)
| KeyError (msg : string)
| IndexError (msg : string)
| TypeError (msg : string)
| AttributeError (msg : string)
| OverflowError (msg : string).

Inductive result (A : Type) : Type :=
| Ok (a : A)
| Raise (e : exn).

Arguments Ok {A} a.
Arguments Raise {A} e.

Definition rbind {A B : Type} (r : result A) (k : A -> result B) : result B :=
  match r with
  | Ok a => k a
  | Raise e => Raise e
  end.

(** ** State-and-exception monad for code that mutates an object *)

Definition St (S A : Type) : Type := S -> result A * S.

Definition ret {S A : Type} (a : A) : St S A := fun s => (Ok a, s).

Definition raise {S A : Type} (e : exn) : St S A := fun s => (Raise e, s).

Definition bind {S A B : Type} (m : St S A) (k : A -> St S B) : St S B :=
  fun s =>
    match m s with
    | (Ok a, s') => k a s'
    | (Raise e, s') => (Raise e, s')
    end.

Definition get {S : Type} : St S S := fun s => (Ok s, s).

Definition put {S : Type} (s : S) : St S unit := fun _ => (Ok tt, s).

Definition lift {S A : Type} (r : result A) : St S A := fun s => (r, s).

Declare Scope st_scope.
Delimit Scope st_scope with st.

Notation "x <- m ;; k" := (bind m (fun x => k))
  (at level 61, m at next level, right associativity) : st_scope.
Notation "m ;;; k" := (bind m (fun _ => k))
  (at level 61, right associativity) : st_scope.
Notation "x <~ r ;; k" := (rbind r (fun x => k))
  (at level 61, r at next level, right associativity) : st_scope.

Local Open Scope st_scope.

(** ** Characters and strings *)

Definition LF : ascii := ascii_of_nat 10.

Definition code (c : ascii) : Z := Z.of_nat (nat_of_ascii c).

(** [\d] of [re] on the Latin-1 range. *)
Definition is_digit (c : ascii) : bool :=
  (48 <=? code c) && (code c <=? 57).

Definition digit_val (c : ascii) : Z := code c - 48.

(** [str.isspace] for one code point below 256. *)
Definition is_space (c : ascii) : bool :=
  let n := code c in
  ((9 <=? n) && (n <=? 13)) || ((28 <=? n) && (n <=? 32))
  || (n =? 133) || (n =? 160).

(** [str.lower] for one code point below 256. *)
Definition lower_char (c : ascii) : ascii :=
  let n := code c in
  if ((65 <=? n) && (n <=? 90))
     || ((192 <=? n) && (n <=? 222) && negb (n =? 215))
  then ascii_of_nat (Z.to_nat (n + 32))
  else c.

Fixpoint lower (s : string) : string :=
  match s with
  | EmptyString => EmptyString
  | String c s' => String (lower_char c) (lower s')
  end.

Fixpoint all_chars (p : ascii -> bool) (s : string) : bool :=
  match s with
  | EmptyString => true
  | String c s' => p c && all_chars p s'
  end.

Fixpoint rev_string (acc s : string) : string :=
  match s with
  | EmptyString => acc
  | String c s' => rev_string (String c acc) s'
  end.

Fixpoint lstrip (s : string) : string :=
  match s with
  | EmptyString => EmptyString
  | String c s' => if is_space c then lstrip s' else s
  end.

(** [str.strip()] with no argument. *)
Definition strip (s : string) : string :=
  rev_string EmptyString (lstrip (rev_string EmptyString (lstrip s))).

(** [str.split()] with no argument: maximal runs of non-space characters.
    [cur] is the token being read, in reverse. *)
Fixpoint split_ws (cur : string) (s : string) : list string :=
  match s with
  | EmptyString =>
      match cur with
      | EmptyString => []
      | _ => [rev_string EmptyString cur]
      end
  | String c s' =>
      if is_space c then
        match cur with
        | EmptyString => split_ws EmptyString s'
        | _ => rev_string EmptyString cur :: split_ws EmptyString s'
        end
      else split_ws (String c cur) s'
  end.

Definition split (s : string) : list string := split_ws EmptyString s.

Fixpoint join (sep : string) (l : list string) : string :=
  match l with
  | [] => EmptyString
  | [x] => x
  | x :: l' => x ++ sep ++ join sep l'
  end.

(** The decimal text of an integer ([%i], and [%Y] of the C library):
    no leading zeros, a minus sign for a negative number. *)
Definition show_int (z : Z) : string := NilZero.string_of_int (Z.to_int z).

(** ** Fields *)

(** [class Field]: an object with one attribute, [value]. *)
Record Field : Type := mkField { value : string }.

(** [Name.__init__] *)
Definition Name_init (v : string) : result Field :=
  if String.eqb (strip v) EmptyString
  then Raise (ValueError "Name cannot be empty.")
  else Ok (mkField v).

(** [\d{n}] at the start of [s]: the rest of [s] when its first [n]
    characters are digits. *)
Fixpoint take_digits (n : nat) (s : string) : option string :=
  match n with
  | O => Some s
  | S n' =>
      match s with
      | EmptyString => None
      | String c s' => if is_digit c then take_digits n' s' else None
      end
  end.

(** [$] without [re.MULTILINE]: the end of the string, or the position
    just before a line feed that is the last character. *)
Definition at_dollar (rest : string) : bool :=
  match rest with
  | EmptyString => true
  | String c EmptyString => Ascii.eqb c LF
  | _ => false
  end.

(** [re.match(r"^\d{10}$", value)], as a truth value. *)
Definition re_match_phone (v : string) : bool :=
  match take_digits 10 v with
  | Some rest => at_dollar rest
  | None => false
  end.

(** [Phone.__init__] *)
Definition Phone_init (v : string) : result Field :=
  if re_match_phone v then Ok (mkField v)
  else Raise (ValueError "Phone must contain exactly 10 digits.").

(** ** Calendar dates ([datetime.date]) *)

Record date : Type := mkDate { year : Z; month : Z; day : Z }.

Definition MINYEAR : Z := 1.
Definition MAXYEAR : Z := 9999.
Definition MAXORDINAL : Z := 3652059.

Definition is_leap (y : Z) : bool :=
  (y mod 4 =? 0) && (negb (y mod 100 =? 0) || (y mod 400 =? 0)).

Definition days_in_month (y m : Z) : Z :=
  if m =? 2 then (if is_leap y then 29 else 28)
  else if (m =? 4) || (m =? 6) || (m =? 9) || (m =? 11) then 30
  else 31.

(** The checks of the [date] constructor, in its order. *)
Definition date_new (y m d : Z) : result date :=
  if negb ((MINYEAR <=? y) && (y <=? MAXYEAR))
  then Raise (ValueError ("year " ++ show_int y ++ " is out of range"))
  else if negb ((1 <=? m) && (m <=? 12))
  then Raise (ValueError "month must be in 1..12")
  else if negb ((1 <=? d) && (d <=? days_in_month y m))
  then Raise (ValueError "day is out of range for month")
  else Ok (mkDate y m d).

(** [d.replace(year=y)] *)
Definition date_replace_year (d : date) (y : Z) : result date :=
  date_new y (month d) (day d).

Definition days_before_year (y : Z) : Z :=
  let y1 := y - 1 in
  y1 * 365 + y1 / 4 - y1 / 100 + y1 / 400.

(** [_DAYS_BEFORE_MONTH] *)
Definition DAYS_BEFORE_MONTH (m : Z) : Z :=
  nth (Z.to_nat m)
      [-1; 0; 31; 59; 90; 120; 151; 181; 212; 243; 273; 304; 334] 0.

Definition days_before_month (y m : Z) : Z :=
  DAYS_BEFORE_MONTH m + (if (2 <? m) && is_leap y then 1 else 0).

Definition toordinal (d : date) : Z :=
  days_before_year (year d) + days_before_month (year d) (month d) + day d.

(** Monday is 0 and Sunday is 6. *)
Definition weekday (d : date) : Z := (toordinal d + 6) mod 7.

Definition DI400Y : Z := 146097.
Definition DI100Y : Z := 36524.
Definition DI4Y : Z := 1461.

(** [date.fromordinal], following the cycle decomposition of the
    library. *)
Definition fromordinal (ord : Z) : date :=
  let n := ord - 1 in
  let n400 := n / DI400Y in
  let n := n mod DI400Y in
  let y := n400 * 400 + 1 in
  let n100 := n / DI100Y in
  let n := n mod DI100Y in
  let n4 := n / DI4Y in
  let n := n mod DI4Y in
  let n1 := n / 365 in
  let n := n mod 365 in
  let y := y + n100 * 100 + n4 * 4 + n1 in
  if (n1 =? 4) || (n100 =? 4) then mkDate (y - 1) 12 31
  else
    let leapyear := (n1 =? 3) && (negb (n4 =? 24) || (n100 =? 3)) in
    let m := Z.shiftr (n + 50) 5 in
    let preceding :=
      DAYS_BEFORE_MONTH m + (if (2 <? m) && leapyear then 1 else 0) in
    if n <? preceding then
      let m' := m - 1 in
      let dim :=
        (if m' =? 2 then 28
         else if (m' =? 4) || (m' =? 6) || (m' =? 9) || (m' =? 11) then 30
         else 31)
        + (if (m' =? 2) && leapyear then 1 else 0) in
      mkDate y m' (n - (preceding - dim) + 1)
    else mkDate y m (n - preceding + 1).

(** [d + timedelta(days=k)] *)
Definition date_add_days (d : date) (k : Z) : result date :=
  let o := toordinal d + k in
  if (0 <? o) && (o <=? MAXORDINAL) then Ok (fromordinal o)
  else Raise (OverflowError "date value out of range").

(** [(a - b).days] *)
Definition date_sub_days (a b : date) : Z := toordinal a - toordinal b.

(** [a < b]: the dates are compared as (year, month, day) triples. *)
Definition date_lt (a b : date) : bool :=
  (year a <? year b)
  || ((year a =? year b)
      && ((month a <? month b)
          || ((month a =? month b) && (day a <? day b)))).

Definition digit_char (d : Z) : ascii := ascii_of_nat (Z.to_nat (48 + d mod 10)).

Definition pad2 (n : Z) : string :=
  String (digit_char (n / 10)) (String (digit_char n) EmptyString).

Definition pad4 (n : Z) : string :=
  String (digit_char (n / 1000))
    (String (digit_char (n / 100)) (pad2 n)).

(** [%Y] of the C library, for the years of a date (1 to 9999): the
    year in decimal, without leading zeros. *)
Definition show_year (y : Z) : string :=
  if y <? 10 then String (digit_char y) EmptyString
  else if y <? 100 then pad2 y
  else if y <? 1000 then String (digit_char (y / 100)) (pad2 y)
  else pad4 y.

(** [d.strftime("%d.%m.%Y")]: day and month with two digits, the year
    as the C library writes it, so with fewer than four digits before
    the year 1000. *)
Definition strftime_dmy (d : date) : string :=
  pad2 (day d) ++ "." ++ pad2 (month d) ++ "." ++ show_year (year d).

(** ** [datetime.strptime(s, "%d.%m.%Y")]

    The library turns the format into a regular expression, one group
    per directive, matches it at the start of [s], requires the match to
    cover all of [s], and builds the date from the three numbers.  The
    alternatives of a group are tried in the order in which the library
    lists them, and a later alternative is tried when the rest of the
    expression fails after an earlier one. *)

Definition alt : Type := string -> option (Z * string).

Definition in_range (lo hi : Z) (c : ascii) : bool :=
  (lo <=? code c) && (code c <=? hi).

Definition two_chars (p1 p2 : ascii -> bool) : alt := fun s =>
  match s with
  | String c1 (String c2 r) =>
      if p1 c1 && p2 c2 then Some (10 * digit_val c1 + digit_val c2, r)
      else None
  | _ => None
  end.

Definition one_char (p : ascii -> bool) : alt := fun s =>
  match s with
  | String c r => if p c then Some (digit_val c, r) else None
  | _ => None
  end.

Definition space_then (p : ascii -> bool) : alt := fun s =>
  match s with
  | String c1 (String c2 r) =>
      if Ascii.eqb c1 " " && p c2 then Some (digit_val c2, r) else None
  | _ => None
  end.

Fixpoint first_alt {A : Type} (alts : list alt)
         (k : Z -> string -> option A) (s : string) : option A :=
  match alts with
  | [] => None
  | a :: alts' =>
      match a s with
      | Some (v, r) =>
          match k v r with
          | Some x => Some x
          | None => first_alt alts' k s
          end
      | None => first_alt alts' k s
      end
  end.

(** [%d]: [3[0-1]|[1-2]\d|0[1-9]|[1-9]| [1-9]] *)
Definition day_alts : list alt :=
  [ two_chars (in_range 51 51) (in_range 48 49);
    two_chars (in_range 49 50) is_digit;
    two_chars (in_range 48 48) (in_range 49 57);
    one_char (in_range 49 57);
    space_then (in_range 49 57) ].

(** [%m]: [1[0-2]|0[1-9]|[1-9]] *)
Definition month_alts : list alt :=
  [ two_chars (in_range 49 49) (in_range 48 50);
    two_chars (in_range 48 48) (in_range 49 57);
    one_char (in_range 49 57) ].

(** [\.] *)
Definition dot (s : string) : option string :=
  match s with
  | String c r => if Ascii.eqb c "." then Some r else None
  | _ => None
  end.

(** [%Y]: [\d\d\d\d] *)
Definition year4 (s : string) : option (Z * string) :=
  match s with
  | String c1 (String c2 (String c3 (String c4 r))) =>
      if is_digit c1 && is_digit c2 && is_digit c3 && is_digit c4
      then Some (1000 * digit_val c1 + 100 * digit_val c2
                 + 10 * digit_val c3 + digit_val c4, r)
      else None
  | _ => None
  end.

(** The match of the whole expression: day, month, year, and what is
    left of the string after the match. *)
Definition regex_dmy (s : string) : option (Z * Z * Z * string) :=
  first_alt day_alts (fun d s1 =>
    match dot s1 with
    | None => None
    | Some s2 =>
        first_alt month_alts (fun m s3 =>
          match dot s3 with
          | None => None
          | Some s4 =>
              match year4 s4 with
              | None => None
              | Some (y, rest) => Some (d, m, y, rest)
              end
          end) s2
    end) s.

Definition strptime_dmy (s : string) : result date :=
  match regex_dmy s with
  | None => Raise (ValueError "time data does not match format")
  | Some (d, m, y, rest) =>
      match rest with
      | EmptyString => date_new y m d
      | _ => Raise (ValueError "unconverted data remains")
      end
  end.

(** [Birthday.__init__]: the text is checked and then kept as it is. *)
Definition Birthday_init (v : string) : result Field :=
  match strptime_dmy v with
  | Ok _ => Ok (mkField v)
  | Raise (ValueError _) =>
      Raise (ValueError "Invalid date format. Use DD.MM.YYYY.")
  | Raise e => Raise e
  end.

(** ** [class Record] *)

Record Record_ : Type := mkRecord {
  name : Field;
  phones : list Field;
  birthday : option Field
}.

Definition set_phones (self : Record_) (ps : list Field) : Record_ :=
  mkRecord (name self) ps (birthday self).

Definition set_birthday (self : Record_) (b : option Field) : Record_ :=
  mkRecord (name self) (phones self) b.

(** [Record.__init__] *)
Definition Record_init (nm : string) : result Record_ :=
  n <~ Name_init nm ;; Ok (mkRecord n [] None).

(** [Record.find_phone]: the first phone whose value is [phone]. *)
Definition Record_find_phone (phone : string) : St Record_ (option Field) :=
  self <- get ;;
  ret (find (fun p => String.eqb (value p) phone) (phones self)).

(** [Record.add_phone] *)
Definition Record_add_phone (phone : string) : St Record_ unit :=
  p <- lift (Phone_init phone) ;;
  self <- get ;;
  put (set_phones self (phones self ++ [p])%list).

(** [list.remove] of the object that [find_phone] returned: the first
    entry with that value goes. *)
Fixpoint remove_first (phone : string) (l : list Field) : list Field :=
  match l with
  | [] => []
  | p :: l' =>
      if String.eqb (value p) phone then l' else p :: remove_first phone l'
  end.

(** [Record.remove_phone] *)
Definition Record_remove_phone (phone : string) : St Record_ unit :=
  phone_to_remove <- Record_find_phone phone ;;
  match phone_to_remove with
  | Some _ =>
      self <- get ;;
      put (set_phones self (remove_first phone (phones self)))
  | None => ret tt
  end.

(** [Record.edit_phone] *)
Definition Record_edit_phone (old_phone new_phone : string)
  : St Record_ unit :=
  phone_to_edit <- Record_find_phone old_phone ;;
  match phone_to_edit with
  | Some _ =>
      Record_remove_phone old_phone ;;;
      Record_add_phone new_phone
  | None => raise (ValueError "Old phone not found.")
  end.

(** [Record.add_birthday]: a [Birthday] object is always true. *)
Definition Record_add_birthday (b : string) : St Record_ unit :=
  self <- get ;;
  match birthday self with
  | Some _ => raise (ValueError "Birthday is already set.")
  | None =>
      bd <- lift (Birthday_init b) ;;
      self <- get ;;
      put (set_birthday self (Some bd))
  end.

(** [s.strftime(fmt)] for a [str] [s]: the attribute lookup fails. *)
Definition str_strftime (s fmt : string) : result string :=
  Raise (AttributeError "'str' object has no attribute 'strftime'").

(** [Record.__str__] *)
Definition Record_str (self : Record_) : result string :=
  let phones_s := join "; " (map value (phones self)) in
  birthday_str <~
    match birthday self with
    | Some b =>
        s <~ str_strftime (value b) "%d.%m.%Y" ;; Ok (", Birthday: " ++ s)
    | None => Ok EmptyString
    end ;;
  Ok ("Contact name: " ++ value (name self) ++ ", phones: "
      ++ phones_s ++ birthday_str).

(** ** [class AddressBook]

    [self.data] is a dictionary; it keeps its keys in the order in which
    they were first inserted. *)

Definition AddressBook : Type := list (string * Record_).

Fixpoint dict_get (k : string) (d : AddressBook) : option Record_ :=
  match d with
  | [] => None
  | (k', v) :: d' => if String.eqb k' k then Some v else dict_get k d'
  end.

(** [d[k] = v]: an existing key keeps its place. *)
Fixpoint dict_set (k : string) (v : Record_) (d : AddressBook)
  : AddressBook :=
  match d with
  | [] => [(k, v)]
  | (k', v') :: d' =>
      if String.eqb k' k then (k, v) :: d' else (k', v') :: dict_set k v d'
  end.

Fixpoint dict_del (k : string) (d : AddressBook) : AddressBook :=
  match d with
  | [] => []
  | (k', v') :: d' =>
      if String.eqb k' k then d' else (k', v') :: dict_del k d'
  end.

Definition dict_values (d : AddressBook) : list Record_ := map snd d.

(** A method call on a record object that the book holds under key [k]:
    [r] is the object's state before the call, and its state after the
    call is what the book holds from then on, also when the call raises. *)
Definition on_record {A : Type} (k : string) (r : Record_)
           (m : St Record_ A) : St AddressBook A :=
  fun book => let (x, r') := m r in (x, dict_set k r' book).

(** [AddressBook.add_record] *)
Definition AddressBook_add_record (record : Record_) : St AddressBook unit :=
  book <- get ;;
  put (dict_set (value (name record)) record book).

(** [AddressBook.find] *)
Definition AddressBook_find (nm : string) : St AddressBook (option Record_) :=
  book <- get ;; ret (dict_get nm book).

(** [AddressBook.delete] *)
Definition AddressBook_delete (nm : string) : St AddressBook unit :=
  book <- get ;;
  match dict_get nm book with
  | Some _ => put (dict_del nm book)
  | None => raise (KeyError ("No contact named " ++ nm))
  end.

(** One entry of the list that the query returns. *)
Record entry : Type := mkEntry { entry_name : string; entry_birthday : string }.

Fixpoint for_each {S A B : Type} (l : list A) (body : A -> B -> St S B)
         (acc : B) : St S B :=
  match l with
  | [] => ret acc
  | x :: l' => acc' <- body x acc ;; for_each l' body acc'
  end.

(** The body of the loop of [get_upcoming_birthdays] for one record;
    [upcoming] is the list built so far. *)
Definition upcoming_body (today : date) (record : Record_)
           (upcoming : list entry) : result (list entry) :=
  match birthday record with
  | None => Ok upcoming
  | Some b =>
      birthday_date <~ strptime_dmy (value b) ;;
      birthday_this_year <~ date_replace_year birthday_date (year today) ;;
      birthday_this_year <~
        (if date_lt birthday_this_year today
         then date_replace_year birthday_this_year (year today + 1)
         else Ok birthday_this_year) ;;
      let days_until_birthday := date_sub_days birthday_this_year today in
      if (0 <=? days_until_birthday) && (days_until_birthday <=? 7) then
        greeting_date <~
          (if weekday birthday_this_year =? 5
           then date_add_days birthday_this_year 2
           else if weekday birthday_this_year =? 6
           then date_add_days birthday_this_year 1
           else Ok birthday_this_year) ;;
        Ok (upcoming
            ++ [mkEntry (value (name record)) (strftime_dmy greeting_date)])%list
      else Ok upcoming
  end.

(** [AddressBook.get_upcoming_birthdays] *)
Definition AddressBook_get_upcoming_birthdays (today : date)
  : St AddressBook (list entry) :=
  book <- get ;;
  for_each (dict_values book)
           (fun record upcoming => lift (upcoming_body today record upcoming))
           [].

Fixpoint map_result {A B : Type} (f : A -> result B) (l : list A)
  : result (list B) :=
  match l with
  | [] => Ok []
  | x :: l' => y <~ f x ;; ys <~ map_result f l' ;; Ok (y :: ys)
  end.

Definition NL : string := String LF EmptyString.

(** [AddressBook.__str__] *)
Definition AddressBook_str (book : AddressBook) : result string :=
  lines <~ map_result Record_str (dict_values book) ;; Ok (join NL lines).

(** ** The command layer *)

(** The decorator [input_error]: four exception classes are turned into
    a reply, any other exception passes through. *)
Definition input_error {S : Type} (func : St S string) : St S string :=
  fun s =>
    match func s with
    | (Raise (KeyError _), s') => (Ok "This contact does not exist.", s')
    | (Raise (ValueError msg), s') => (Ok msg, s')
    | (Raise (IndexError _), s') =>
        (Ok "Enter the argument for the command.", s')
    | (Raise (TypeError _), s') =>
        (Ok "Invalid input. Please check your data and try again.", s')
    | r => r
    end.

(** [args[i]] *)
Definition index (args : list string) (i : nat) : result string :=
  match nth_error args i with
  | Some a => Ok a
  | None => Raise (IndexError "list index out of range")
  end.

Definition show_nat (n : nat) : string :=
  String (digit_char (Z.of_nat n)) EmptyString.

Definition not_enough (expected : string) (got : nat) : exn :=
  ValueError ("not enough values to unpack (expected " ++ expected
              ++ ", got " ++ show_nat got ++ ")").

Definition too_many (expected : string) : exn :=
  ValueError ("too many values to unpack (expected " ++ expected ++ ")").

(** [a, b = args] *)
Definition unpack2 (args : list string) : result (string * string) :=
  match args with
  | [a; b] => Ok (a, b)
  | _ => if (List.length args <? 2)%nat then Raise (not_enough "2" (List.length args))
         else Raise (too_many "2")
  end.

(** [a, b, c = args] *)
Definition unpack3 (args : list string)
  : result (string * string * string) :=
  match args with
  | [a; b; c] => Ok (a, b, c)
  | _ => if (List.length args <? 3)%nat then Raise (not_enough "3" (List.length args))
         else Raise (too_many "3")
  end.

(** The truth value of [phone], a [str] or [None]. *)
Definition truthy (phone : option string) : bool :=
  match phone with
  | Some (String _ _) => true
  | _ => false
  end.

Definition add_contact_def (args : list string) : St AddressBook string :=
  nm <- lift (index args 0) ;;
  phone <- ret (if (1 <? List.length args)%nat then nth_error args 1 else None) ;;
  found <- AddressBook_find nm ;;
  rm <- match found with
        | Some record => ret (record, "Contact updated.")
        | None =>
            record <- lift (Record_init nm) ;;
            AddressBook_add_record record ;;;
            ret (record, "Contact added.")
        end ;;
  (if truthy phone
   then on_record nm (fst rm)
          (Record_add_phone (match phone with Some p => p | None => "" end))
   else ret tt) ;;;
  ret (snd rm).

Definition add_contact (args : list string) : St AddressBook string :=
  input_error (add_contact_def args).

Definition change_contact_def (args : list string) : St AddressBook string :=
  a <- lift (unpack3 args) ;;
  let '(nm, old_phone, new_phone) := a in
  found <- AddressBook_find nm ;;
  match found with
  | Some record =>
      on_record nm record (Record_edit_phone old_phone new_phone) ;;;
      ret ("Phone updated for contact " ++ nm ++ ".")
  | None => ret "This contact does not exist."
  end.

Definition change_contact (args : list string) : St AddressBook string :=
  input_error (change_contact_def args).

Definition show_phone_def (args : list string) : St AddressBook string :=
  match args with
  | [] => ret "Enter a contact name."
  | _ =>
      nm <- lift (index args 0) ;;
      found <- AddressBook_find nm ;;
      match found with
      | Some record =>
          ret ("Phones for " ++ nm ++ ": "
               ++ join ", " (map value (phones record)))
      | None => ret "This contact does not exist."
      end
  end.

Definition show_phone (args : list string) : St AddressBook string :=
  input_error (show_phone_def args).

Definition delete_contact_def (args : list string) : St AddressBook string :=
  match args with
  | [] => ret "Enter a contact name to delete."
  | _ =>
      nm <- lift (index args 0) ;;
      AddressBook_delete nm ;;;
      ret ("Contact " ++ nm ++ " deleted.")
  end.

Definition delete_contact (args : list string) : St AddressBook string :=
  input_error (delete_contact_def args).

(** [show_all] is not decorated and has the book as its only argument. *)
Definition show_all : St AddressBook string :=
  book <- get ;;
  match book with
  | [] => ret "No contacts saved."
  | _ => lift (AddressBook_str book)
  end.

Definition add_birthday_def (args : list string) : St AddressBook string :=
  a <- lift (unpack2 args) ;;
  let '(nm, b) := a in
  found <- AddressBook_find nm ;;
  match found with
  | Some record =>
      on_record nm record (Record_add_birthday b) ;;;
      ret ("Birthday added for contact " ++ nm ++ ".")
  | None => ret "This contact does not exist."
  end.

Definition add_birthday (args : list string) : St AddressBook string :=
  input_error (add_birthday_def args).

Definition show_birthday_def (args : list string) : St AddressBook string :=
  nm <- lift (index args 0) ;;
  found <- AddressBook_find nm ;;
  match found with
  | Some (mkRecord _ _ (Some b)) =>
      s <- lift (str_strftime (value b) "%d.%m.%Y") ;;
      ret ("Birthday of " ++ nm ++ ": " ++ s)
  | _ => ret "No birthday found for this contact."
  end.

Definition show_birthday (args : list string) : St AddressBook string :=
  input_error (show_birthday_def args).

Definition birthdays_def (today : date) (args : list string)
  : St AddressBook string :=
  upcoming <- AddressBook_get_upcoming_birthdays today ;;
  match upcoming with
  | [] => ret "No upcoming birthdays."
  | _ =>
      ret (join NL (map (fun e => entry_name e ++ ": " ++ entry_birthday e)
                        upcoming))
  end.

Definition birthdays (today : date) (args : list string)
  : St AddressBook string :=
  input_error (birthdays_def today args).

(** ** The dispatch loop *)

(** [parse_input]: [cmd, *args = user_input.strip().split()] *)
Definition parse_input (user_input : string)
  : result (string * list string) :=
  match split (strip user_input) with
  | cmd :: args => Ok (lower cmd, args)
  | [] => Raise (not_enough "at least 1" 0)
  end.

(** The dictionary [commands] of [main].  Every entry is called with
    two arguments, [(args, book)]; [show_all] takes one, so the call of
    that entry is a [TypeError]. *)
Definition commands (today : date)
  : list (string * (list string -> St AddressBook string)) :=
  [ ("add", add_contact);
    ("change", change_contact);
    ("phone", show_phone);
    ("all", fun _ => raise (TypeError
       "show_all() takes 1 positional argument but 2 were given"));
    ("birthday", show_birthday);
    ("add-birthday", add_birthday);
    ("birthdays", birthdays today) ].

Fixpoint lookup {A : Type} (k : string) (d : list (string * A)) : option A :=
  match d with
  | [] => None
  | (k', v) :: d' => if String.eqb k' k then Some v else lookup k d'
  end.

(** What one turn of the loop of [main] does with the line it read. *)
Inductive outcome : Type :=
| Printed (out : string) (book : AddressBook)
| Finished (out : string)
| Uncaught (e : exn) (book : AddressBook).

Definition main_step (today : date) (line : string) (book : AddressBook)
  : outcome :=
  let user_input := strip line in
  if String.eqb user_input EmptyString
  then Printed "Please enter a valid command." book
  else
    match parse_input user_input with
    | Raise e => Uncaught e book
    | Ok (command, args) =>
        if String.eqb command "close" || String.eqb command "exit"
        then Finished "Good bye!"
        else if String.eqb command "hello"
        then Printed "How can I help you?" book
        else
          match lookup command (commands today) with
          | Some f =>
              match f args book with
              | (Ok out, book') => Printed out book'
              | (Raise e, book') => Uncaught e book'
              end
          | None => Printed "Unknown command." book
          end
    end.

(** ** Statements of the specification, in its own words

    The definitions of this part do not come from the code: they say
    what the specification says, to be compared with the code. *)

(** "exactly 10 decimal digits" *)
Definition ten_digits (s : string) : Prop :=
  String.length s = 10%nat /\ all_chars is_digit s = true.

(** A triple of numbers that is a calendar date. *)
Definition valid_ymd (y m d : Z) : bool :=
  (1 <=? y) && (y <=? 9999) && (1 <=? m) && (m <=? 12)
  && (1 <=? d) && (d <=? days_in_month y m).

Definition valid_date (d : date) : bool := valid_ymd (year d) (month d) (day d).

Definition two_digit (c1 c2 : ascii) : Z := 10 * digit_val c1 + digit_val c2.

(** "2-digit day, 2-digit month and 4-digit year separated by dots",
    naming a calendar date. *)
Definition is_dd_mm_yyyy (s : string) : bool :=
  match s with
  | String d1 (String d2 (String p1 (String m1 (String m2 (String p2
      (String y1 (String y2 (String y3 (String y4 EmptyString))))))))) =>
      is_digit d1 && is_digit d2 && Ascii.eqb p1 "."
      && is_digit m1 && is_digit m2 && Ascii.eqb p2 "."
      && is_digit y1 && is_digit y2 && is_digit y3 && is_digit y4
      && valid_ymd (100 * two_digit y1 y2 + two_digit y3 y4)
                   (two_digit m1 m2) (two_digit d1 d2)
  | _ => false
  end.

(** The texts that stand for a day number: two digits, one digit that is
    not zero, or a space and one such digit. *)
Inductive day_text : string -> Z -> Prop :=
| day_two c1 c2 :
    is_digit c1 = true -> is_digit c2 = true ->
    1 <= two_digit c1 c2 <= 31 ->
    day_text (String c1 (String c2 EmptyString)) (two_digit c1 c2)
| day_one c :
    is_digit c = true -> 1 <= digit_val c ->
    day_text (String c EmptyString) (digit_val c)
| day_space c :
    is_digit c = true -> 1 <= digit_val c ->
    day_text (String " " (String c EmptyString)) (digit_val c).

(** The texts that stand for a month number: two digits, or one digit
    that is not zero. *)
Inductive month_text : string -> Z -> Prop :=
| month_two c1 c2 :
    is_digit c1 = true -> is_digit c2 = true ->
    1 <= two_digit c1 c2 <= 12 ->
    month_text (String c1 (String c2 EmptyString)) (two_digit c1 c2)
| month_one c :
    is_digit c = true -> 1 <= digit_val c ->
    month_text (String c EmptyString) (digit_val c).

(** The texts that stand for a year number: four digits. *)
Inductive year_text : string -> Z -> Prop :=
| year_four c1 c2 c3 c4 :
    is_digit c1 = true -> is_digit c2 = true ->
    is_digit c3 = true -> is_digit c4 = true ->
    year_text (String c1 (String c2 (String c3 (String c4 EmptyString))))
              (100 * two_digit c1 c2 + two_digit c3 c4).

(** [s] is a day text, a dot, a month text, a dot, a year text and then
    [rest]. *)
Definition dmy_text (s : string) (d m y : Z) (rest : string) : Prop :=
  exists D M Y,
    s = D ++ "." ++ M ++ "." ++ Y ++ rest
    /\ day_text D d /\ month_text M m /\ year_text Y y.

(** The candidate date of a birthday: its day and month in the year of
    [today], or in the next year when that date is before [today];
    nothing when the date wanted does not exist. *)
Definition spec_candidate (today bd : date) : option date :=
  let this_year := mkDate (year today) (month bd) (day bd) in
  let next_year := mkDate (year today + 1) (month bd) (day bd) in
  if valid_date this_year then
    if date_lt this_year today then
      if valid_date next_year then Some next_year else None
    else Some this_year
  else None.

Definition spec_in_window (today c : date) : bool :=
  let days := toordinal c - toordinal today in
  (0 <=? days) && (days <=? 7).

(** The date [k] days after [c]. *)
Definition shift_date (c : date) (k : Z) : date := fromordinal (toordinal c + k).

Definition spec_greeting (c : date) : date :=
  if weekday c =? 5 then shift_date c 2
  else if weekday c =? 6 then shift_date c 1
  else c.

(** The candidate of a record, when the record has a birthday, the
    birthday is readable and the candidate date exists. *)
Definition record_candidate (today : date) (r : Record_) : option date :=
  match birthday r with
  | None => None
  | Some b =>
      match strptime_dmy (value b) with
      | Ok bd => spec_candidate today bd
      | Raise _ => None
      end
  end.

Definition spec_entries (today : date) (r : Record_) : list entry :=
  match record_candidate today r with
  | Some c =>
      if spec_in_window today c
      then [mkEntry (value (name r)) (strftime_dmy (spec_greeting c))]
      else []
  | None => []
  end.

(** The reply of the query: the entries of the records, in the order of
    the book. *)
Definition spec_upcoming (today : date) (book : AddressBook) : list entry :=
  flat_map (spec_entries today) (dict_values book).

(** Every birthday of the book has a candidate date. *)
Definition candidates_exist (today : date) (book : AddressBook) : bool :=
  forallb (fun r => match birthday r with
                    | None => true
                    | Some _ => match record_candidate today r with
                                | Some _ => true
                                | None => false
                                end
                    end)
          (dict_values book).

(** ** Auxiliary definitions for the proofs *)

(** The loop of the query, without the book. *)
Fixpoint fold_result {A B : Type} (f : A -> B -> result B) (l : list A)
         (acc : B) : result B :=
  match l with
  | [] => Ok acc
  | x :: l' =>
      match f x acc with
      | Ok acc' => fold_result f l' acc'
      | Raise e => Raise e
      end
  end.

(** The month and the day of the [n]-th day of a year, counted from 0,
    as [fromordinal] finds them. *)
Definition month_day (leapyear : bool) (n : Z) : Z * Z :=
  let m := Z.shiftr (n + 50) 5 in
  let preceding :=
    DAYS_BEFORE_MONTH m + (if (2 <? m) && leapyear then 1 else 0) in
  if n <? preceding then
    let m' := m - 1 in
    let dim :=
      (if m' =? 2 then 28
       else if (m' =? 4) || (m' =? 6) || (m' =? 9) || (m' =? 11) then 30
       else 31)
      + (if (m' =? 2) && leapyear then 1 else 0) in
    (m', n - (preceding - dim) + 1)
  else (m, n - preceding + 1).

Definition month_day_ok (leapyear : bool) (n : Z) : bool :=
  let (m, d) := month_day leapyear n in
  (1 <=? m) && (m <=? 12) && (1 <=? d)
  && (d <=? (if m =? 2 then (if leapyear then 29 else 28)
             else if (m =? 4) || (m =? 6) || (m =? 9) || (m =? 11) then 30
             else 31))
  && (DAYS_BEFORE_MONTH m + (if (2 <? m) && leapyear then 1 else 0) + d
      =? n + 1).

(** ** The loop of [main]

    [input()] is a stream of lines; each line comes with the date that
    the clock shows while the line is handled. *)

Inductive ending : Type :=
| Exited
| Crashed (e : exn)
| InputEnded.

Fixpoint main_loop (lines : list (date * string)) (book : AddressBook)
  : list string * ending * AddressBook :=
  match lines with
  | [] => ([], InputEnded, book)
  | (today, line) :: rest =>
      match main_step today line book with
      | Printed out book' =>
          let '(outs, e, b) := main_loop rest book' in (out :: outs, e, b)
      | Finished out => ([out], Exited, book)
      | Uncaught e book' => ([], Crashed e, book')
      end
  end.

(** [main]: the lines printed, how the run ended, and the book then. *)
Definition main (lines : list (date * string))
  : list string * ending * AddressBook :=
  let '(outs, e, b) := main_loop lines [] in
  ("Welcome to the assistant bot!" :: outs, e, b).

(** ** What the book holds

    The keys of a dictionary are distinct. *)
Fixpoint keys_unique (d : AddressBook) : bool :=
  match d with
  | [] => true
  | (k, _) :: d' =>
      match dict_get k d' with
      | None => keys_unique d'
      | Some _ => false
      end
  end.

(** A record under key [k]: its name is [k] and is not blank, its phones
    match the expression of [Phone], its birthday is readable. *)
Definition record_ok (k : string) (r : Record_) : bool :=
  String.eqb (value (name r)) k
  && negb (String.eqb (strip k) EmptyString)
  && forallb (fun p => re_match_phone (value p)) (phones r)
  && match birthday r with
     | None => true
     | Some b => match strptime_dmy (value b) with
                 | Ok _ => true
                 | Raise _ => false
                 end
     end.

Definition book_ok (book : AddressBook) : bool :=
  keys_unique book && forallb (fun kr => record_ok (fst kr) (snd kr)) book.

Definition not_space (c : ascii) : bool := negb (is_space c).

(** The line of a record that has no birthday. *)
Definition render_plain (r : Record_) : string :=
  "Contact name: " ++ value (name r) ++ ", phones: "
  ++ join "; " (map value (phones r)).

Definition has_birthday (r : Record_) : bool :=
  match birthday r with
  | Some _ => true
  | None => false
  end.

(** ** Values for the worked examples *)

Definition today_ex : date := mkDate 2024 6 10.

Definition with_birthday (nm b : string) : Record_ :=
  mkRecord (mkField nm) [] (Some (mkField b)).

Definition john : Record_ :=
  mkRecord (mkField "John") [mkField "1234567890"] None.

Definition book_ex : AddressBook :=
  [ ("Anna", with_birthday "Anna" "12.06.2024");
    ("Bob", with_birthday "Bob" "15.06.2024");
    ("Cara", with_birthday "Cara" "09.06.2024") ].

(** * Worked examples *)

Example strptime_two_digit : strptime_dmy "01.01.2000" = Ok (mkDate 2000 1 1).
Proof. reflexivity. Qed.

Example strptime_invalid_day :
  strptime_dmy "31.02.2000" = Raise (ValueError "day is out of range for month").
Proof. reflexivity. Qed.

Example toordinal_ex :
  toordinal today_ex = 739047 /\ weekday today_ex = 0.
Proof. split; reflexivity. Qed.

Example fromordinal_ex :
  fromordinal 739047 = today_ex
  /\ fromordinal MAXORDINAL = mkDate 9999 12 31
  /\ fromordinal 1 = mkDate 1 1 1
  /\ fromordinal 738945 = mkDate 2024 2 29
  /\ fromordinal 738946 = mkDate 2024 3 1.
Proof. repeat split; reflexivity. Qed.

Example birthdays_scenario :
  birthdays today_ex [] book_ex
  = (Ok ("Anna: 12.06.2024" ++ NL ++ "Bob: 17.06.2024"), book_ex).
Proof. vm_compute. reflexivity. Qed.

Example birthdays_year_wrap :
  birthdays (mkDate 2024 12 28) [] [("Dan", with_birthday "Dan" "02.01.2024")]
  = (Ok "Dan: 02.01.2025", [("Dan", with_birthday "Dan" "02.01.2024")]).
Proof. vm_compute. reflexivity. Qed.

Example add_twice :
  (add_contact ["name"; "1234567890"] ;;; add_contact ["name"; "0987654321"]) []
  = (Ok "Contact updated.",
     [("name", mkRecord (mkField "name")
                 [mkField "1234567890"; mkField "0987654321"] None)]).
Proof. vm_compute. reflexivity. Qed.

(** * Properties *)

(** ** Strings *)

Lemma append_empty_r (s : string) : s ++ "" = s.
Proof. induction s as [|c s IH]; simpl; [reflexivity | now rewrite IH]. Qed.

Lemma take_digits_some (n : nat) (s rest : string) :
  take_digits n s = Some rest ->
  exists d, s = d ++ rest /\ String.length d = n /\ all_chars is_digit d = true.
Proof.
  revert s. induction n as [|n IH]; intros s H; simpl in H.
  - exists "". injection H as ->. repeat split.
  - destruct s as [|c s]; [discriminate|].
    destruct (is_digit c) eqn:Hc; [|discriminate].
    destruct (IH _ H) as (d & -> & Hl & Hd).
    exists (String c d). simpl. rewrite Hc, Hd, Hl. repeat split.
Qed.

Lemma take_digits_append (d rest : string) :
  all_chars is_digit d = true ->
  take_digits (String.length d) (d ++ rest) = Some rest.
Proof.
  induction d as [|c d IH]; simpl; intros H; [reflexivity|].
  apply andb_true_iff in H as [Hc Hd]. rewrite Hc. now apply IH.
Qed.

Lemma at_dollar_true (rest : string) :
  at_dollar rest = true <-> rest = "" \/ rest = NL.
Proof.
  unfold at_dollar, NL. split.
  - destruct rest as [|c [|c' r]]; intros H; try discriminate.
    + now left.
    + right. apply Ascii.eqb_eq in H. now subst.
  - intros [-> | ->]; [reflexivity | apply Ascii.eqb_refl].
Qed.

Lemma re_match_phone_spec (s : string) :
  re_match_phone s = true
  <-> ten_digits s \/ exists d, ten_digits d /\ s = d ++ NL.
Proof.
  unfold re_match_phone, ten_digits. split.
  - destruct (take_digits 10 s) as [rest|] eqn:Ht; [|discriminate].
    intros H. apply at_dollar_true in H.
    destruct (take_digits_some _ _ _ Ht) as (d & -> & Hl & Hd).
    destruct H as [-> | ->].
    + left. rewrite append_empty_r. now split.
    + right. exists d. repeat split; assumption.
  - intros [[Hl Hd] | (d & [Hl Hd] & ->)].
    + rewrite <- (append_empty_r s) at 1. rewrite <- Hl.
      now rewrite take_digits_append.
    + rewrite <- Hl. rewrite take_digits_append by assumption.
      apply at_dollar_true. now right.
Qed.

(** ** The monad and the loop *)

Lemma for_each_lift {S A B : Type} (f : A -> B -> result B) (l : list A)
      (acc : B) (s : S) :
  for_each l (fun x a => lift (f x a)) acc s = (fold_result f l acc, s).
Proof.
  revert acc. induction l as [|x l IH]; intros acc; simpl; [reflexivity|].
  unfold bind, lift. destruct (f x acc) as [acc'|e]; [apply IH | reflexivity].
Qed.

Lemma get_upcoming_birthdays_fold (today : date) (book : AddressBook) :
  AddressBook_get_upcoming_birthdays today book
  = (fold_result (upcoming_body today) (dict_values book) [], book).
Proof.
  unfold AddressBook_get_upcoming_birthdays, bind, get.
  apply for_each_lift.
Qed.

#[local] Arguments Z.mul : simpl never.
#[local] Arguments Z.add : simpl never.
#[local] Arguments Z.sub : simpl never.

(** ** Dates *)

Ltac zbool :=
  repeat match goal with
    | |- context [?a <=? ?b] => destruct (Z.leb_spec a b)
    | |- context [?a <? ?b] => destruct (Z.ltb_spec a b)
    | |- context [?a =? ?b] => destruct (Z.eqb_spec a b)
    | H : context [?a <=? ?b] |- _ => destruct (Z.leb_spec a b)
    | H : context [?a <? ?b] |- _ => destruct (Z.ltb_spec a b)
    | H : context [?a =? ?b] |- _ => destruct (Z.eqb_spec a b)
    end; simpl in *.

Lemma date_new_cases (y m d : Z) :
  (valid_ymd y m d = true /\ date_new y m d = Ok (mkDate y m d))
  \/ (valid_ymd y m d = false
      /\ exists msg, date_new y m d = Raise (ValueError msg)).
Proof.
  unfold valid_ymd, date_new, MINYEAR, MAXYEAR.
  generalize (days_in_month y m). intros dim.
  zbool; try lia; solve [left; split; reflexivity | right; split; eauto].
Qed.

Lemma days_in_month_bounds (y m : Z) : 28 <= days_in_month y m <= 31.
Proof. unfold days_in_month. destruct (is_leap y); zbool; lia. Qed.

Lemma toordinal_bounds (c : date) :
  valid_date c = true -> 1 <= toordinal c <= MAXORDINAL.
Proof.
  destruct c as [y m d]. unfold valid_date, valid_ymd, toordinal; simpl.
  intros H. repeat (apply andb_true_iff in H; destruct H as [H ?]).
  apply Z.leb_le in H. repeat match goal with H : (_ <=? _) = true |- _ => apply Z.leb_le in H end.
  unfold MAXORDINAL, days_before_year, days_before_month, days_in_month, is_leap in *.
  assert (Hm : m = 1 \/ m = 2 \/ m = 3 \/ m = 4 \/ m = 5 \/ m = 6 \/ m = 7
               \/ m = 8 \/ m = 9 \/ m = 10 \/ m = 11 \/ m = 12) by lia.
  repeat (destruct Hm as [-> | Hm]); try subst m; cbn in *;
   zbool; Z.div_mod_to_equations; lia.
Qed.

Lemma weekend_shift_in_range (c : date) (k : Z) :
  valid_date c = true ->
  (weekday c = 5 /\ k = 2) \/ (weekday c = 6 /\ k = 1) ->
  date_add_days c k = Ok (shift_date c k).
Proof.
  intros Hc Hk. pose proof (toordinal_bounds c Hc) as Hb.
  unfold date_add_days, shift_date, weekday, MAXORDINAL in *.
  assert (0 < toordinal c + k <= 3652059) as [H1 H2]
    by (destruct Hk as [[Hw ->] | [Hw ->]]; Z.div_mod_to_equations; lia).
  apply Z.ltb_lt in H1. apply Z.leb_le in H2. now rewrite H1, H2.
Qed.

Lemma spec_candidate_valid (today bd c : date) :
  spec_candidate today bd = Some c -> valid_date c = true.
Proof.
  unfold spec_candidate.
  destruct (valid_date (mkDate (year today) _ _)) eqn:H1; [|discriminate].
  destruct (date_lt _ today).
  - destruct (valid_date (mkDate (year today + 1) _ _)) eqn:H2;
      [|discriminate].
    now intros [= <-].
  - now intros [= <-].
Qed.

(** The greeting step of the loop never raises on a date that exists. *)
Lemma greeting_step (c : date) :
  valid_date c = true ->
  (if weekday c =? 5 then date_add_days c 2
   else if weekday c =? 6 then date_add_days c 1
   else Ok c) = Ok (spec_greeting c).
Proof.
  intros Hc. unfold spec_greeting.
  destruct (Z.eqb_spec (weekday c) 5) as [H5|H5].
  - apply weekend_shift_in_range; auto.
  - destruct (Z.eqb_spec (weekday c) 6) as [H6|H6]; [|reflexivity].
    apply weekend_shift_in_range; auto.
Qed.

(** The candidate step of the loop: the two calls of [replace]. *)
Lemma candidate_step (today bd : date) :
  match spec_candidate today bd with
  | Some c =>
      rbind (date_replace_year bd (year today))
            (fun c0 => if date_lt c0 today
                       then date_replace_year c0 (year today + 1)
                       else Ok c0) = Ok c
  | None =>
      exists msg,
        rbind (date_replace_year bd (year today))
              (fun c0 => if date_lt c0 today
                         then date_replace_year c0 (year today + 1)
                         else Ok c0) = Raise (ValueError msg)
  end.
Proof.
  unfold spec_candidate, date_replace_year, valid_date; simpl.
  destruct (date_new_cases (year today) (month bd) (day bd))
    as [[-> ->] | [-> (msg & ->)]]; simpl; [|eauto].
  destruct (date_lt _ today); [|reflexivity].
  destruct (date_new_cases (year today + 1) (month bd) (day bd))
    as [[-> ->] | [-> (msg & ->)]]; simpl; [reflexivity | eauto].
Qed.

Lemma strptime_dmy_cases (s : string) :
  (exists bd, strptime_dmy s = Ok bd)
  \/ (exists msg, strptime_dmy s = Raise (ValueError msg)).
Proof.
  unfold strptime_dmy.
  destruct (regex_dmy s) as [[[[d m] y] [|c rest]]|]; eauto.
  destruct (date_new_cases y m d) as [[_ ->] | [_ (msg & ->)]]; eauto.
Qed.

(** One turn of the loop on a record that has a candidate. *)
Lemma upcoming_body_candidate (today : date) (r : Record_) (c : date)
      (acc : list entry) :
  record_candidate today r = Some c ->
  upcoming_body today r acc = Ok (acc ++ spec_entries today r)%list.
Proof.
  unfold upcoming_body, spec_entries. intros H. rewrite H.
  unfold record_candidate in H.
  destruct (birthday r) as [b|]; [|discriminate].
  destruct (strptime_dmy (value b)) as [bd|e]; [|discriminate]. simpl.
  pose proof (candidate_step today bd) as Hs. rewrite H in Hs.
  pose proof (spec_candidate_valid _ _ _ H) as Hc.
  unfold rbind in Hs.
  destruct (date_replace_year bd (year today)) as [c0|e]; [|discriminate].
  simpl. rewrite Hs. simpl.
  unfold spec_in_window, date_sub_days.
  destruct ((0 <=? _) && _); [|now rewrite app_nil_r].
  now rewrite (greeting_step c Hc).
Qed.

(** One turn of the loop on a record without a birthday. *)
Lemma upcoming_body_no_birthday (today : date) (r : Record_)
      (acc : list entry) :
  birthday r = None ->
  upcoming_body today r acc = Ok (acc ++ spec_entries today r)%list.
Proof.
  unfold upcoming_body, spec_entries, record_candidate. intros ->.
  now rewrite app_nil_r.
Qed.

(** One turn of the loop returns, or raises [ValueError]; it raises
    when the record has a birthday without a candidate. *)
Lemma upcoming_body_cases (today : date) (r : Record_) (acc : list entry) :
  (exists acc', upcoming_body today r acc = Ok acc')
  \/ (exists msg, upcoming_body today r acc = Raise (ValueError msg)).
Proof.
  destruct (birthday r) as [b|] eqn:Hb.
  - destruct (record_candidate today r) as [c|] eqn:Hc.
    + left. rewrite (upcoming_body_candidate _ _ _ _ Hc). eauto.
    + right. unfold upcoming_body, record_candidate in *. rewrite Hb in *.
      destruct (strptime_dmy_cases (value b)) as [[bd Hp] | [msg Hp]];
        rewrite Hp in *; simpl; [|eauto].
      pose proof (candidate_step today bd) as Hs. rewrite Hc in Hs.
      destruct Hs as [msg Hs]. unfold rbind in Hs.
      destruct (date_replace_year bd (year today)) as [c0|e]; simpl.
      * rewrite Hs. simpl. eauto.
      * injection Hs as ->. eauto.
  - left. rewrite (upcoming_body_no_birthday _ _ _ Hb). eauto.
Qed.

Lemma upcoming_body_no_candidate (today : date) (r : Record_) (b : Field)
      (acc : list entry) :
  birthday r = Some b ->
  record_candidate today r = None ->
  exists msg, upcoming_body today r acc = Raise (ValueError msg).
Proof.
  intros Hb Hc.
  destruct (upcoming_body_cases today r acc) as [[acc' H] | H]; [|assumption].
  exfalso. unfold upcoming_body, record_candidate in *. rewrite Hb in *.
  destruct (strptime_dmy (value b)) as [bd|e]; [|discriminate]. simpl in H.
  pose proof (candidate_step today bd) as Hs. rewrite Hc in Hs.
  destruct Hs as [msg Hs]. unfold rbind in Hs.
  destruct (date_replace_year bd (year today)) as [c0|e]; [|discriminate].
  simpl in H. rewrite Hs in H. discriminate.
Qed.

Lemma fold_upcoming_spec (today : date) (l : list Record_) (acc : list entry) :
  forallb (fun r => match birthday r with
                    | None => true
                    | Some _ => match record_candidate today r with
                                | Some _ => true
                                | None => false
                                end
                    end) l = true ->
  fold_result (upcoming_body today) l acc
  = Ok (acc ++ flat_map (spec_entries today) l)%list.
Proof.
  revert acc. induction l as [|r l IH]; intros acc H; simpl.
  - now rewrite app_nil_r.
  - simpl in H. apply andb_true_iff in H as [Hr Hl].
    assert (Hb : upcoming_body today r acc
                 = Ok (acc ++ spec_entries today r)%list).
    { destruct (birthday r) as [b|] eqn:Hb.
      - destruct (record_candidate today r) as [c|] eqn:Hc; [|discriminate].
        now apply (upcoming_body_candidate _ _ c).
      - now apply upcoming_body_no_birthday. }
    rewrite Hb, (IH _ Hl). now rewrite app_assoc.
Qed.

Lemma fold_upcoming_raises (today : date) (l : list Record_) (r : Record_)
      (b : Field) (acc : list entry) :
  In r l -> birthday r = Some b -> record_candidate today r = None ->
  exists msg, fold_result (upcoming_body today) l acc = Raise (ValueError msg).
Proof.
  intros Hin Hb Hc. revert acc.
  induction l as [|x l IH]; intros acc; [contradiction|]. simpl.
  destruct (upcoming_body_cases today x acc) as [[acc' H] | [msg H]].
  - destruct Hin as [-> | Hin].
    + destruct (upcoming_body_no_candidate today r b acc Hb Hc) as [msg Hr].
      rewrite Hr in H. discriminate.
    + rewrite H. now apply IH.
  - rewrite H. eauto.
Qed.

(** *** Ordinals and dates *)

Lemma month_day_all (leapyear : bool) :
  forallb (fun k => month_day_ok leapyear (Z.of_nat k)) (seq 0 365) = true.
Proof. destruct leapyear; vm_compute; reflexivity. Qed.

Lemma month_day_spec (leapyear : bool) (n : Z) :
  0 <= n < 365 -> month_day_ok leapyear n = true.
Proof.
  intros Hn. pose proof (month_day_all leapyear) as H.
  rewrite forallb_forall in H.
  specialize (H (Z.to_nat n)). rewrite Z2Nat.id in H by lia.
  apply H. apply in_seq. lia.
Qed.

Lemma days_before_year_cycles (a b c e : Z) :
  0 <= a -> 0 <= b <= 3 -> 0 <= c <= 24 -> 0 <= e <= 3 ->
  days_before_year (400 * a + 100 * b + 4 * c + e + 1)
  = 146097 * a + 36524 * b + 1461 * c + 365 * e.
Proof.
  intros Ha Hb Hc He. unfold days_before_year.
  replace (400 * a + 100 * b + 4 * c + e + 1 - 1)
    with (400 * a + 100 * b + 4 * c + e) by lia.
  Z.div_mod_to_equations. lia.
Qed.

Lemma is_leap_cycles (a b c e : Z) :
  0 <= a -> 0 <= b <= 3 -> 0 <= c <= 24 -> 0 <= e <= 3 ->
  is_leap (400 * a + 100 * b + 4 * c + e + 1)
  = (e =? 3) && (negb (c =? 24) || (b =? 3)).
Proof.
  intros Ha Hb Hc He. unfold is_leap.
  destruct (Z.eqb_spec e 3); destruct (Z.eqb_spec c 24);
    destruct (Z.eqb_spec b 3); simpl;
    repeat match goal with
      | |- context [?x =? ?y] => destruct (Z.eqb_spec x y)
      end; simpl; try reflexivity; exfalso;
    Z.div_mod_to_equations; lia.
Qed.

Lemma fromordinal_unfold (ord : Z) :
  fromordinal ord
  = let n0 := ord - 1 in
    let a := n0 / 146097 in
    let r1 := n0 mod 146097 in
    let b := r1 / 36524 in
    let r2 := r1 mod 36524 in
    let c := r2 / 1461 in
    let r3 := r2 mod 1461 in
    let e := r3 / 365 in
    let r4 := r3 mod 365 in
    if (e =? 4) || (b =? 4)
    then mkDate (a * 400 + 1 + b * 100 + c * 4 + e - 1) 12 31
    else
      let leapyear := (e =? 3) && (negb (c =? 24) || (b =? 3)) in
      mkDate (a * 400 + 1 + b * 100 + c * 4 + e)
             (fst (month_day leapyear r4)) (snd (month_day leapyear r4)).
Proof.
  unfold fromordinal, month_day, DI400Y, DI100Y, DI4Y. cbv zeta.
  destruct ((_ =? 4) || (_ =? 4)); [reflexivity|].
  destruct (_ <? _); reflexivity.
Qed.

Lemma toordinal_fromordinal (n : Z) :
  1 <= n <= MAXORDINAL ->
  valid_date (fromordinal n) = true /\ toordinal (fromordinal n) = n.
Proof.
  intros Hn. unfold MAXORDINAL in Hn. rewrite fromordinal_unfold. cbv zeta.
  set (a := (n - 1) / 146097). set (r1 := (n - 1) mod 146097).
  set (b := r1 / 36524). set (r2 := r1 mod 36524).
  set (c := r2 / 1461). set (r3 := r2 mod 1461).
  set (e := r3 / 365). set (r4 := r3 mod 365).
  assert (Hn0 : n - 1 = 146097 * a + 36524 * b + 1461 * c + 365 * e + r4
                /\ 0 <= a <= 24 /\ 0 <= b <= 4 /\ 0 <= c <= 24 /\ 0 <= e <= 4
                /\ 0 <= r4 < 365
                /\ (b = 4 -> c = 0 /\ e = 0 /\ r4 = 0)
                /\ (e = 4 -> r4 = 0 /\ c <= 23 /\ b <= 3)).
  { subst a r1 b r2 c r3 e r4. Z.div_mod_to_equations. lia. }
  clearbody a b c e r4. clear r1 r2 r3.
  destruct Hn0 as (E & Ha & Hb & Hc & He & Hr & Hb4 & He4).
  destruct ((e =? 4) || (b =? 4)) eqn:Hcase.
  - apply orb_true_iff in Hcase.
    assert (Hy : exists b' c', 0 <= b' <= 3 /\ 0 <= c' <= 24
                  /\ a * 400 + 1 + b * 100 + c * 4 + e - 1
                     = 400 * a + 100 * b' + 4 * c' + 3 + 1
                  /\ n - 1
                     = 146097 * a + 36524 * b' + 1461 * c' + 365 * 3 + 365
                  /\ (c' <> 24 \/ b' = 3)).
    { destruct (Z.eq_dec b 4) as [Hb'|Hb'].
      - exists 3, 24. lia.
      - assert (e = 4) by (destruct Hcase as [H|H]; apply Z.eqb_eq in H; lia).
        exists b, c. lia. }
    destruct Hy as (b' & c' & Hb' & Hc' & -> & En & Hl).
    unfold valid_date, valid_ymd, toordinal, days_before_month. simpl.
    rewrite days_before_year_cycles, is_leap_cycles by lia.
    unfold days_in_month. simpl.
    assert (Hleap : negb (c' =? 24) || (b' =? 3) = true).
    { destruct (Z.eqb_spec c' 24); destruct (Z.eqb_spec b' 3); simpl; lia. }
    rewrite Hleap. simpl.
    split; [|unfold DAYS_BEFORE_MONTH; simpl; lia].
    repeat (apply andb_true_iff; split); apply Z.leb_le; lia.
  - apply orb_false_iff in Hcase as [He' Hb''].
    apply Z.eqb_neq in He', Hb''.
    replace (a * 400 + 1 + b * 100 + c * 4 + e)
      with (400 * a + 100 * b + 4 * c + e + 1) by lia.
    set (leapyear := (e =? 3) && (negb (c =? 24) || (b =? 3))).
    pose proof (month_day_spec leapyear r4 Hr) as Hmd.
    unfold month_day_ok in Hmd.
    destruct (month_day leapyear r4) as [m d]. simpl.
    apply andb_true_iff in Hmd as [Hmd Hsum].
    apply andb_true_iff in Hmd as [Hmd Hdim].
    apply andb_true_iff in Hmd as [Hmd Hd1].
    apply andb_true_iff in Hmd as [Hm1 Hm12].
    apply Z.eqb_eq in Hsum.
    unfold valid_date, valid_ymd, toordinal, days_before_month, days_in_month.
    simpl.
    rewrite days_before_year_cycles, is_leap_cycles by lia.
    fold leapyear.
    split; [|lia].
    rewrite Hm1, Hm12, Hd1, Hdim.
    assert (Hy : (1 <=? 400 * a + 100 * b + 4 * c + e + 1) = true
                 /\ (400 * a + 100 * b + 4 * c + e + 1 <=? 9999) = true).
    { split; apply Z.leb_le; lia. }
    destruct Hy as [-> ->]. reflexivity.
Qed.

(** [shift_date c k] is the date [k] days after [c]. *)
Lemma shift_date_spec (c : date) (k : Z) :
  valid_date c = true -> 0 <= k -> toordinal c + k <= MAXORDINAL ->
  valid_date (shift_date c k) = true
  /\ toordinal (shift_date c k) = toordinal c + k.
Proof.
  intros Hc Hk Hmax. pose proof (toordinal_bounds c Hc).
  apply toordinal_fromordinal. lia.
Qed.

(** The greeting date is a date, it is the candidate or one or two days
    after it, and it is never a Saturday or a Sunday. *)
Lemma spec_greeting_spec (c : date) :
  valid_date c = true ->
  valid_date (spec_greeting c) = true
  /\ toordinal (spec_greeting c)
     = toordinal c
       + (if weekday c =? 5 then 2 else if weekday c =? 6 then 1 else 0)
  /\ 0 <= weekday (spec_greeting c) <= 4.
Proof.
  intros Hc. pose proof (toordinal_bounds c Hc) as Hb.
  assert (Hw : 0 <= weekday c < 7) by (apply Z.mod_pos_bound; lia).
  unfold spec_greeting.
  destruct (Z.eqb_spec (weekday c) 5) as [H5|H5];
    [|destruct (Z.eqb_spec (weekday c) 6) as [H6|H6]].
  - destruct (shift_date_spec c 2 Hc) as [Hv Ho];
      [lia | unfold weekday, MAXORDINAL in *; Z.div_mod_to_equations; lia |].
    repeat split; try assumption;
      unfold weekday in *; rewrite Ho; Z.div_mod_to_equations; lia.
  - destruct (shift_date_spec c 1 Hc) as [Hv Ho];
      [lia | unfold weekday, MAXORDINAL in *; Z.div_mod_to_equations; lia |].
    repeat split; try assumption;
      unfold weekday in *; rewrite Ho; Z.div_mod_to_equations; lia.
  - repeat split; try assumption; lia.
Qed.

(** The entries of the reply, one by one. *)
Lemma spec_upcoming_In (today : date) (book : AddressBook) (e : entry) :
  In e (spec_upcoming today book)
  <-> exists r c,
      In r (dict_values book)
      /\ record_candidate today r = Some c
      /\ 0 <= toordinal c - toordinal today <= 7
      /\ e = mkEntry (value (name r)) (strftime_dmy (spec_greeting c)).
Proof.
  unfold spec_upcoming. rewrite in_flat_map. split.
  - intros (r & Hin & He). unfold spec_entries in He.
    destruct (record_candidate today r) as [c|] eqn:Hc; [|contradiction].
    destruct (spec_in_window today c) eqn:Hw; [|contradiction].
    destruct He as [<- | []]. exists r, c.
    unfold spec_in_window in Hw. apply andb_true_iff in Hw as [H1 H2].
    apply Z.leb_le in H1, H2. auto.
  - intros (r & c & Hin & Hc & Hw & ->). exists r. split; [assumption|].
    unfold spec_entries. rewrite Hc.
    replace (spec_in_window today c) with true; [now left|].
    symmetry. unfold spec_in_window.
    apply andb_true_iff. split; apply Z.leb_le; lia.
Qed.

(** ** Reading a date *)

Ltac b2p :=
  repeat match goal with
    | H : _ && _ = true |- _ => apply andb_true_iff in H; destruct H
    | H : (_ <=? _) = true |- _ => apply Z.leb_le in H
    | H : Ascii.eqb _ _ = true |- _ => apply Ascii.eqb_eq in H
    end.

Ltac p2b :=
  repeat match goal with
    | |- _ && _ = true => apply andb_true_iff; split
    | |- (_ <=? _) = true => apply Z.leb_le
    | |- Ascii.eqb _ _ = true => apply Ascii.eqb_eq
    end.

Lemma first_alt_sound {A : Type} (alts : list alt)
      (k : Z -> string -> option A) (s : string) (x : A) :
  first_alt alts k s = Some x ->
  exists a v r, In a alts /\ a s = Some (v, r) /\ k v r = Some x.
Proof.
  induction alts as [|a alts IH]; simpl; [discriminate|].
  destruct (a s) as [[v r]|] eqn:Ha.
  - destruct (k v r) as [x'|] eqn:Hk.
    + intros [= <-]. exists a, v, r. auto.
    + intros H. destruct (IH H) as (a' & v' & r' & Hin & H').
      exists a', v', r'. auto.
  - intros H. destruct (IH H) as (a' & v' & r' & Hin & H').
    exists a', v', r'. auto.
Qed.

Lemma first_alt_complete {A : Type} (alts : list alt)
      (k : Z -> string -> option A) (s : string) (a : alt) (v : Z)
      (r : string) (x : A) :
  In a alts -> a s = Some (v, r) -> k v r = Some x ->
  exists x', first_alt alts k s = Some x'.
Proof.
  induction alts as [|a' alts IH]; simpl; [contradiction|].
  intros [-> | Hin] Ha Hk.
  - rewrite Ha, Hk. eauto.
  - destruct (a' s) as [[v' r']|]; [|now apply IH].
    destruct (k v' r'); [eauto | now apply IH].
Qed.

Lemma two_chars_some (p1 p2 : ascii -> bool) (s : string) (v : Z)
      (r : string) :
  two_chars p1 p2 s = Some (v, r) ->
  exists c1 c2, s = String c1 (String c2 r) /\ v = two_digit c1 c2
                /\ p1 c1 = true /\ p2 c2 = true.
Proof.
  unfold two_chars. destruct s as [|c1 [|c2 s]]; try discriminate.
  destruct (p1 c1) eqn:H1; [|discriminate].
  destruct (p2 c2) eqn:H2; [|discriminate].
  intros [= <- <-]. exists c1, c2. auto.
Qed.

Lemma one_char_some (p : ascii -> bool) (s : string) (v : Z) (r : string) :
  one_char p s = Some (v, r) ->
  exists c, s = String c r /\ v = digit_val c /\ p c = true.
Proof.
  unfold one_char. destruct s as [|c s]; try discriminate.
  destruct (p c) eqn:H1; [|discriminate].
  intros [= <- <-]. exists c. auto.
Qed.

Lemma space_then_some (p : ascii -> bool) (s : string) (v : Z) (r : string) :
  space_then p s = Some (v, r) ->
  exists c, s = String " " (String c r) /\ v = digit_val c /\ p c = true.
Proof.
  unfold space_then. destruct s as [|c1 [|c2 s]]; try discriminate.
  destruct (Ascii.eqb c1 " ") eqn:H1; [|discriminate].
  destruct (p c2) eqn:H2; [|discriminate].
  apply Ascii.eqb_eq in H1. subst c1.
  intros [= <- <-]. exists c2. auto.
Qed.

Lemma day_alts_sound (a : alt) (s : string) (v : Z) (r : string) :
  In a day_alts -> a s = Some (v, r) ->
  exists D, s = D ++ r /\ day_text D v.
Proof.
  unfold day_alts. simpl.
  intros [<- | [<- | [<- | [<- | [<- | []]]]]] H.
  1-3: apply two_chars_some in H as (c1 & c2 & -> & -> & H1 & H2);
    exists (String c1 (String c2 "")); split; [reflexivity|];
    unfold in_range, is_digit in *; b2p;
    constructor; unfold is_digit, two_digit, digit_val; p2b; lia.
  - apply one_char_some in H as (c & -> & -> & H1).
    exists (String c ""). split; [reflexivity|].
    unfold in_range in *; b2p.
    apply day_one; unfold is_digit, digit_val; p2b; lia.
  - apply space_then_some in H as (c & -> & -> & H1).
    exists (String " " (String c "")). split; [reflexivity|].
    unfold in_range in *; b2p.
    apply day_space; unfold is_digit, digit_val; p2b; lia.
Qed.

Lemma month_alts_sound (a : alt) (s : string) (v : Z) (r : string) :
  In a month_alts -> a s = Some (v, r) ->
  exists M, s = M ++ r /\ month_text M v.
Proof.
  unfold month_alts. simpl.
  intros [<- | [<- | [<- | []]]] H.
  1-2: apply two_chars_some in H as (c1 & c2 & -> & -> & H1 & H2);
    exists (String c1 (String c2 "")); split; [reflexivity|];
    unfold in_range, is_digit in *; b2p;
    constructor; unfold is_digit, two_digit, digit_val; p2b; lia.
  - apply one_char_some in H as (c & -> & -> & H1).
    exists (String c ""). split; [reflexivity|].
    unfold in_range in *; b2p.
    apply month_one; unfold is_digit, digit_val; p2b; lia.
Qed.

Lemma two_chars_match (p1 p2 : ascii -> bool) (c1 c2 : ascii) (r : string) :
  p1 c1 = true -> p2 c2 = true ->
  two_chars p1 p2 (String c1 (String c2 r)) = Some (two_digit c1 c2, r).
Proof. intros H1 H2. unfold two_chars. now rewrite H1, H2. Qed.

Lemma day_alts_complete (D : string) (v : Z) (r : string) :
  day_text D v ->
  exists a, In a day_alts /\ a (D ++ r) = Some (v, r).
Proof.
  intros H. destruct H as [c1 c2 H1 H2 Hv | c H1 Hv | c H1 Hv];
    unfold is_digit, two_digit, digit_val in *; b2p.
  - assert (Hc : code c1 = 48 \/ code c1 = 49 \/ code c1 = 50 \/ code c1 = 51)
      by lia.
    destruct Hc as [Hc | [Hc | [Hc | Hc]]].
    + exists (two_chars (in_range 48 48) (in_range 49 57)).
      split; [simpl; auto|].
      apply two_chars_match; unfold in_range; p2b; lia.
    + exists (two_chars (in_range 49 50) is_digit).
      split; [simpl; auto|].
      apply two_chars_match; unfold in_range, is_digit; p2b; lia.
    + exists (two_chars (in_range 49 50) is_digit).
      split; [simpl; auto|].
      apply two_chars_match; unfold in_range, is_digit; p2b; lia.
    + exists (two_chars (in_range 51 51) (in_range 48 49)).
      split; [simpl; auto|].
      apply two_chars_match; unfold in_range; p2b; lia.
  - exists (one_char (in_range 49 57)). split; [simpl; auto|].
    simpl. unfold in_range.
    replace ((49 <=? code c) && (code c <=? 57)) with true; [reflexivity|].
    symmetry. p2b; lia.
  - exists (space_then (in_range 49 57)). split; [simpl; auto 6|].
    simpl. unfold in_range.
    replace ((49 <=? code c) && (code c <=? 57)) with true; [reflexivity|].
    symmetry. p2b; lia.
Qed.

Lemma month_alts_complete (M : string) (v : Z) (r : string) :
  month_text M v ->
  exists a, In a month_alts /\ a (M ++ r) = Some (v, r).
Proof.
  intros H. destruct H as [c1 c2 H1 H2 Hv | c H1 Hv];
    unfold is_digit, two_digit, digit_val in *; b2p.
  - assert (Hc : code c1 = 48 \/ code c1 = 49) by lia.
    destruct Hc as [Hc | Hc].
    + exists (two_chars (in_range 48 48) (in_range 49 57)).
      split; [simpl; auto|].
      apply two_chars_match; unfold in_range; p2b; lia.
    + exists (two_chars (in_range 49 49) (in_range 48 50)).
      split; [simpl; auto|].
      apply two_chars_match; unfold in_range; p2b; lia.
  - exists (one_char (in_range 49 57)). split; [simpl; auto|].
    simpl. unfold in_range.
    replace ((49 <=? code c) && (code c <=? 57)) with true; [reflexivity|].
    symmetry. p2b; lia.
Qed.

Lemma dot_some (s r : string) : dot s = Some r <-> s = String "." r.
Proof.
  unfold dot. destruct s as [|c s]; [split; discriminate|].
  destruct (Ascii.eqb_spec c "."); split; intros H;
    solve [congruence | injection H; congruence].
Qed.

Lemma year4_some (s : string) (y : Z) (rest : string) :
  year4 s = Some (y, rest) <-> exists Y, s = Y ++ rest /\ year_text Y y.
Proof.
  unfold year4. split.
  - destruct s as [|c1 [|c2 [|c3 [|c4 r]]]]; try discriminate.
    destruct (is_digit c1) eqn:H1; [|discriminate].
    destruct (is_digit c2) eqn:H2; [|discriminate].
    destruct (is_digit c3) eqn:H3; [|discriminate].
    destruct (is_digit c4) eqn:H4; [|discriminate].
    simpl. intros [= <- <-].
    exists (String c1 (String c2 (String c3 (String c4 "")))).
    split; [reflexivity|].
    replace (1000 * digit_val c1 + 100 * digit_val c2 + 10 * digit_val c3
             + digit_val c4)
      with (100 * two_digit c1 c2 + two_digit c3 c4)
      by (unfold two_digit; lia).
    now constructor.
  - intros (Y & -> & HY). destruct HY as [c1 c2 c3 c4 H1 H2 H3 H4].
    simpl. rewrite H1, H2, H3, H4. simpl.
    do 2 f_equal. unfold two_digit. lia.
Qed.

Lemma regex_dmy_sound (s : string) (d m y : Z) (rest : string) :
  regex_dmy s = Some (d, m, y, rest) -> dmy_text s d m y rest.
Proof.
  unfold regex_dmy. intros H.
  apply first_alt_sound in H as (a & v & r & Hin & Ha & H).
  destruct (day_alts_sound _ _ _ _ Hin Ha) as (D & -> & HD).
  destruct (dot r) as [s2|] eqn:Hdot; [|discriminate].
  apply dot_some in Hdot as ->.
  apply first_alt_sound in H as (a' & v' & r' & Hin' & Ha' & H).
  destruct (month_alts_sound _ _ _ _ Hin' Ha') as (M & -> & HM).
  destruct (dot r') as [s4|] eqn:Hdot; [|discriminate].
  apply dot_some in Hdot as ->.
  destruct (year4 s4) as [[y' rest']|] eqn:Hy; [|discriminate].
  injection H as <- <- <- <-.
  apply year4_some in Hy as (Y & -> & HY).
  exists D, M, Y. auto.
Qed.

Lemma dmy_text_unique (s : string) (d m y : Z) (rest : string)
      (d' m' y' : Z) (rest' : string) :
  dmy_text s d m y rest -> dmy_text s d' m' y' rest' ->
  (d, m, y, rest) = (d', m', y', rest').
Proof.
  intros (D & M & Y & -> & HD & HM & HY) (D' & M' & Y' & E & HD' & HM' & HY').
  destruct HD; destruct HD'; simpl in E; injection E; clear E; intros; subst;
    try discriminate;
    destruct HM; destruct HM'; simpl in *;
    match goal with H : _ = _ :> string |- _ => injection H; clear H end;
    intros; subst; try discriminate;
    destruct HY; destruct HY'; simpl in *;
    match goal with H : _ = _ :> string |- _ => injection H; clear H end;
    intros; subst; reflexivity.
Qed.

Lemma regex_dmy_complete (s : string) (d m y : Z) (rest : string) :
  dmy_text s d m y rest -> regex_dmy s = Some (d, m, y, rest).
Proof.
  intros Ht. pose proof Ht as (D & M & Y & -> & HD & HM & HY).
  assert (Hex : exists x, regex_dmy (D ++ "." ++ M ++ "." ++ Y ++ rest)
                          = Some x).
  { unfold regex_dmy.
    destruct (day_alts_complete D d ("." ++ M ++ "." ++ Y ++ rest) HD)
      as (a & Hin & Ha).
    destruct (month_alts_complete M m ("." ++ Y ++ rest) HM)
      as (a' & Hin' & Ha').
    assert (Hy : year4 (Y ++ rest) = Some (y, rest))
      by (apply year4_some; eauto).
    assert (Hinner : exists x',
               first_alt month_alts
                 (fun m0 s3 =>
                    match dot s3 with
                    | None => None
                    | Some s4 =>
                        match year4 s4 with
                        | None => None
                        | Some (y0, rest0) => Some (d, m0, y0, rest0)
                        end
                    end) (M ++ "." ++ Y ++ rest) = Some x').
    { eapply first_alt_complete; [exact Hin' | exact Ha' |].
      simpl. rewrite Hy. reflexivity. }
    destruct Hinner as [x' Hx'].
    eapply first_alt_complete; [exact Hin | exact Ha |].
    simpl. exact Hx'. }
  destruct Hex as [[[[d' m'] y'] rest'] Hx]. rewrite Hx. f_equal.
  symmetry. eapply dmy_text_unique; [exact Ht|].
  now apply regex_dmy_sound.
Qed.

Lemma strptime_dmy_spec (s : string) (dt : date) :
  strptime_dmy s = Ok dt
  <-> dmy_text s (day dt) (month dt) (year dt) ""
      /\ valid_date dt = true.
Proof.
  unfold strptime_dmy. split.
  - destruct (regex_dmy s) as [[[[d m] y] rest]|] eqn:Hr; [|discriminate].
    destruct rest; [|discriminate].
    destruct (date_new_cases y m d) as [[Hv ->] | [_ (msg & ->)]];
      [|discriminate].
    intros [= <-]. split; [now apply regex_dmy_sound | exact Hv].
  - intros [Ht Hv]. rewrite (regex_dmy_complete _ _ _ _ _ Ht).
    destruct dt as [y m d]. simpl in *.
    destruct (date_new_cases y m d) as [[_ ->] | [Hv' _]];
      [reflexivity | unfold valid_date in Hv; simpl in Hv; congruence].
Qed.

(** Every birthday has a candidate when the birthdays are readable, none
    is on 29 February, and the year of [today] and the next are years
    of the calendar. *)
Lemma candidates_exist_no_feb29 (today : date) (book : AddressBook) :
  1 <= year today <= 9998 ->
  (forall r b, In r (dict_values book) -> birthday r = Some b ->
               exists bd, strptime_dmy (value b) = Ok bd
                          /\ ~ (month bd = 2 /\ day bd = 29)) ->
  candidates_exist today book = true.
Proof.
  intros Hy H. unfold candidates_exist. apply forallb_forall. intros r Hin.
  destruct (birthday r) as [b|] eqn:Hb; [|reflexivity].
  destruct (H r b Hin Hb) as (bd & Hp & Hfeb).
  unfold record_candidate. rewrite Hb, Hp.
  apply strptime_dmy_spec in Hp as [_ Hv].
  assert (Hany : forall y, 1 <= y <= 9999 ->
                   valid_date (mkDate y (month bd) (day bd)) = true).
  { intros y Hy'. unfold valid_date, valid_ymd in *. simpl.
    repeat (apply andb_true_iff in Hv; destruct Hv as [Hv ?]).
    assert (Hd : day bd <= days_in_month y (month bd)).
    { match goal with H : (day bd <=? _) = true |- _ => apply Z.leb_le in H end.
      unfold days_in_month in *.
      destruct (Z.eqb_spec (month bd) 2); [|assumption].
      destruct (is_leap y); destruct (is_leap (year bd)); lia. }
    apply Z.leb_le in Hd. rewrite Hd, andb_true_r.
    match goal with
      H1 : (1 <=? month bd) = true, H2 : (month bd <=? 12) = true,
      H3 : (1 <=? day bd) = true |- _ => rewrite H1, H2, H3
    end.
    rewrite !andb_true_r. apply andb_true_iff. split; apply Z.leb_le; lia. }
  unfold spec_candidate. rewrite (Hany (year today)) by lia.
  destruct (date_lt _ today); [|reflexivity].
  now rewrite (Hany (year today + 1)) by lia.
Qed.

(** When [Birthday.__init__] returns. *)
Lemma Birthday_init_ok_iff (s : string) :
  Birthday_init s = Ok (mkField s)
  <-> exists d m y, dmy_text s d m y "" /\ valid_ymd y m d = true.
Proof.
  unfold Birthday_init. split.
  - destruct (strptime_dmy s) as [dt|e] eqn:Hp.
    + intros _. apply strptime_dmy_spec in Hp as [Ht Hv].
      exists (day dt), (month dt), (year dt). auto.
    + destruct (strptime_dmy_cases s) as [[bd H] | [msg H]];
        rewrite H in Hp; [discriminate|].
      injection Hp as <-. discriminate.
  - intros (d & m & y & Ht & Hv).
    assert (Hp : strptime_dmy s = Ok (mkDate y m d))
      by (apply strptime_dmy_spec; auto).
    now rewrite Hp.
Qed.

(** Every text of the shape DD.MM.YYYY that names a calendar date is
    accepted. *)
Lemma Birthday_init_dd_mm_yyyy (s : string) :
  is_dd_mm_yyyy s = true -> Birthday_init s = Ok (mkField s).
Proof.
  intros H. apply Birthday_init_ok_iff. unfold is_dd_mm_yyyy in H.
  destruct s as [|d1 [|d2 [|p1 [|m1 [|m2 [|p2 [|y1 [|y2 [|y3 [|y4 [|? ?]]]]]]]]]]];
    try discriminate.
  b2p. subst.
  exists (two_digit d1 d2), (two_digit m1 m2),
    (100 * two_digit y1 y2 + two_digit y3 y4).
  split; [|assumption].
  exists (String d1 (String d2 "")), (String m1 (String m2 "")),
    (String y1 (String y2 (String y3 (String y4 "")))).
  unfold valid_ymd in *. b2p.
  pose proof (days_in_month_bounds
                (100 * two_digit y1 y2 + two_digit y3 y4) (two_digit m1 m2)).
  repeat split; try constructor; auto; lia.
Qed.

(** ** Commands that end in an error and leave the book as it was *)

Lemma dict_set_same (k : string) (r : Record_) (book : AddressBook) :
  dict_get k book = Some r -> dict_set k r book = book.
Proof.
  induction book as [|[k' v'] book IH]; simpl; [discriminate|].
  destruct (String.eqb_spec k' k) as [->|Hk].
  - now intros [= ->].
  - intros H. now rewrite IH.
Qed.

Lemma on_record_unchanged {A : Type} (k : string) (r : Record_)
      (m : St Record_ A) (book : AddressBook) (x : result A) :
  dict_get k book = Some r -> m r = (x, r) ->
  on_record k r m book = (x, book).
Proof.
  intros Hk Hm. unfold on_record. rewrite Hm. now rewrite dict_set_same.
Qed.

(** [change] with an old phone that the contact does not have. *)
Lemma change_contact_old_phone_absent (nm old_phone new_phone : string)
      (r : Record_) (book : AddressBook) :
  dict_get nm book = Some r ->
  find (fun p => String.eqb (value p) old_phone) (phones r) = None ->
  change_contact [nm; old_phone; new_phone] book
  = (Ok "Old phone not found.", book).
Proof.
  intros Hk Hf.
  unfold change_contact, input_error, change_contact_def, bind, lift,
    AddressBook_find, get, ret. simpl. rewrite Hk.
  rewrite (on_record_unchanged nm r _ book
             (Raise (ValueError "Old phone not found.")) Hk); [reflexivity|].
  unfold Record_edit_phone, Record_find_phone, bind, get, ret, raise.
  now rewrite Hf.
Qed.

(** [add-birthday] for a contact whose birthday is set. *)
Lemma add_birthday_already_set (nm new : string) (r : Record_) (b : Field)
      (book : AddressBook) :
  dict_get nm book = Some r -> birthday r = Some b ->
  add_birthday [nm; new] book = (Ok "Birthday is already set.", book).
Proof.
  intros Hk Hb.
  unfold add_birthday, input_error, add_birthday_def, bind, lift,
    AddressBook_find, get, ret. simpl. rewrite Hk.
  rewrite (on_record_unchanged nm r _ book
             (Raise (ValueError "Birthday is already set.")) Hk);
    [reflexivity|].
  unfold Record_add_birthday, bind, get, raise. now rewrite Hb.
Qed.

(** [add-birthday] with a text that is not a date. *)
Lemma add_birthday_invalid_date (nm new : string) (r : Record_)
      (book : AddressBook) :
  dict_get nm book = Some r -> birthday r = None ->
  Birthday_init new <> Ok (mkField new) ->
  add_birthday [nm; new] book
  = (Ok "Invalid date format. Use DD.MM.YYYY.", book).
Proof.
  intros Hk Hb Hnew.
  assert (Hi : Birthday_init new
               = Raise (ValueError "Invalid date format. Use DD.MM.YYYY.")).
  { unfold Birthday_init in *.
    destruct (strptime_dmy_cases new) as [[bd H] | [msg H]]; rewrite H in *;
      [contradiction | reflexivity]. }
  unfold add_birthday, input_error, add_birthday_def, bind, lift,
    AddressBook_find, get, ret. simpl. rewrite Hk.
  rewrite (on_record_unchanged nm r _ book
             (Raise (ValueError "Invalid date format. Use DD.MM.YYYY.")) Hk);
    [reflexivity|].
  unfold Record_add_birthday, bind, get, lift. now rewrite Hb, Hi.
Qed.

(** [delete_contact] for a name that the book does not have. *)
Lemma delete_contact_absent (nm : string) (rest : list string)
      (book : AddressBook) :
  dict_get nm book = None ->
  delete_contact (nm :: rest) book = (Ok "This contact does not exist.", book).
Proof.
  intros Hk.
  unfold delete_contact, input_error, delete_contact_def,
    AddressBook_delete, index, bind, lift, get, raise. simpl.
  now rewrite Hk.
Qed.

(** * Claims *)

(** C1.  The code fails where the claim promises a line: rendering a
    record that has a birthday raises [AttributeError], whatever the
    name, the phones and the birthday are, and so does the command that
    shows the birthday of a contact that has one; [input_error] does not
    catch that exception. *)
Theorem Record_str_birthday_raises :
  (forall (n : Field) (ps : list Field) (b : Field),
      Record_str (mkRecord n ps (Some b))
      = Raise (AttributeError "'str' object has no attribute 'strftime'"))
  /\ show_birthday ["John"] [("John", with_birthday "John" "01.01.2000")]
     = (Raise (AttributeError "'str' object has no attribute 'strftime'"),
        [("John", with_birthday "John" "01.01.2000")]).
Proof. split; [intros; reflexivity | vm_compute; reflexivity]. Qed.

(** C2.  Two commands end in an error and leave the book changed:
    [change] with a new phone that is not valid has removed the old
    phone, and [add] of a new name with a phone that is not valid has
    added the contact, without a phone. *)
Theorem error_leaves_book_changed :
  change_contact ["John"; "1234567890"; "12345"] [("John", john)]
  = (Ok "Phone must contain exactly 10 digits.",
     [("John", mkRecord (mkField "John") [] None)])
  /\ add_contact ["Bob"; "12345"] []
     = (Ok "Phone must contain exactly 10 digits.",
        [("Bob", mkRecord (mkField "Bob") [] None)]).
Proof. split; vm_compute; reflexivity. Qed.

(** C3, as amended.  When every birthday of the book has a candidate
    date -- its day and month exist in the year of [today], and in the
    next year when the date in the year of [today] is before [today] --
    the query returns, in the order of the book, one entry for each
    record whose candidate is at most 7 days after [today], the day of
    [today] included, and for no other record; the entry gives the name
    and the greeting date, which is the candidate moved 2 days on when
    it is a Saturday, 1 day on when it is a Sunday, and the candidate
    itself otherwise.  The book stays as it is. *)
Theorem get_upcoming_birthdays_spec (today : date) (book : AddressBook) :
  candidates_exist today book = true ->
  AddressBook_get_upcoming_birthdays today book
  = (Ok (spec_upcoming today book), book)
  /\ forall e,
      In e (spec_upcoming today book)
      <-> exists r c,
          In r (dict_values book)
          /\ record_candidate today r = Some c
          /\ 0 <= toordinal c - toordinal today <= 7
          /\ e = mkEntry (value (name r)) (strftime_dmy (spec_greeting c)).
Proof.
  intros H. split; [|intros e; apply spec_upcoming_In].
  rewrite get_upcoming_birthdays_fold.
  unfold spec_upcoming. now rewrite (fold_upcoming_spec today _ [] H).
Qed.

Lemma get_upcoming_birthdays_spec_witness :
  candidates_exist today_ex book_ex = true
  /\ AddressBook_get_upcoming_birthdays today_ex book_ex
     = (Ok [mkEntry "Anna" "12.06.2024"; mkEntry "Bob" "17.06.2024"], book_ex).
Proof.
  split; [reflexivity|].
  exact (proj1 (get_upcoming_birthdays_spec today_ex book_ex eq_refl)).
Defined.

(** C3 as stated fails: in a year that is not a leap year, a record
    whose birthday is 29 February has no candidate, and then a record of
    the same book whose candidate is 2 days after [today] is not
    reported either: the query returns no list at all. *)
Lemma get_upcoming_birthdays_feb29 :
  let today := mkDate 2025 2 27 in
  let anna := with_birthday "Anna" "01.03.2000" in
  let eve := with_birthday "Eve" "29.02.2024" in
  record_candidate today anna = Some (mkDate 2025 3 1)
  /\ toordinal (mkDate 2025 3 1) - toordinal today = 2
  /\ date_new 2025 2 29 = Raise (ValueError "day is out of range for month")
  /\ AddressBook_get_upcoming_birthdays today [("Anna", anna); ("Eve", eve)]
     = (Raise (ValueError "day is out of range for month"),
        [("Anna", anna); ("Eve", eve)]).
Proof. repeat split. Qed.

(** What [Phone.__init__] lets through: ten decimal digits, and ten
    decimal digits followed by one line feed; every other string gets
    the validation error. *)
Lemma Phone_init_spec (s : string) :
  (Phone_init s = Ok (mkField s)
   <-> ten_digits s \/ exists d, ten_digits d /\ s = d ++ NL)
  /\ (Phone_init s = Ok (mkField s)
      \/ Phone_init s
         = Raise (ValueError "Phone must contain exactly 10 digits.")).
Proof.
  unfold Phone_init. split.
  - rewrite <- re_match_phone_spec.
    destruct (re_match_phone s); split; intros H;
      solve [reflexivity | discriminate].
  - destruct (re_match_phone s); [now left | now right].
Qed.

(** C4.  The code accepts a string that the claim refuses: ten digits
    followed by a line feed are not "exactly 10 decimal digits with no
    trailing characters", and the construction succeeds.  The pattern
    is anchored at both ends and the message asks for exactly 10 digits;
    it is [$] that lets the line feed through. *)
Lemma Phone_init_trailing_newline :
  Phone_init ("1234567890" ++ NL) = Ok (mkField ("1234567890" ++ NL))
  /\ ~ ten_digits ("1234567890" ++ NL).
Proof.
  split; [reflexivity|].
  intros [Hl _]. discriminate Hl.
Qed.

(** What [Birthday.__init__] lets through, among the strings of code
    points below 256: a day, a dot, a month, a dot and a year that name
    a calendar date, where the day is written with two digits, with one
    digit, or with a space and one digit, the month with two digits or
    with one, and the year with four digits; every other such string
    gets the validation error. *)
Lemma Birthday_init_spec (s : string) :
  (Birthday_init s = Ok (mkField s)
   <-> exists d m y, dmy_text s d m y "" /\ valid_ymd y m d = true)
  /\ (Birthday_init s = Ok (mkField s)
      \/ Birthday_init s
         = Raise (ValueError "Invalid date format. Use DD.MM.YYYY.")).
Proof.
  split; [apply Birthday_init_ok_iff|].
  unfold Birthday_init.
  destruct (strptime_dmy_cases s) as [[bd ->] | [msg ->]]; auto.
Qed.

(** C5.  The code accepts a string that the claim refuses: in
    [1.01.2000] the day is written with one digit, which is not the
    shape DD.MM.YYYY that the message of the code asks for, and the
    construction succeeds. *)
Lemma Birthday_init_one_digit_day :
  Birthday_init "1.01.2000" = Ok (mkField "1.01.2000")
  /\ is_dd_mm_yyyy "1.01.2000" = false.
Proof. split; reflexivity. Qed.

(** The same text at the prompt: the birthday is stored as it was typed. *)
Lemma add_birthday_one_digit_day (today : date) :
  main_step today "add-birthday John 1.01.2000" [("John", john)]
  = Printed "Birthday added for contact John."
      [("John", mkRecord (mkField "John") [mkField "1234567890"]
                  (Some (mkField "1.01.2000")))].
Proof. vm_compute. reflexivity. Qed.

(** C6, as amended.  Without arguments, [add] and the command that shows
    a birthday reply "Enter the argument for the command.", [phone]
    replies "Enter a contact name." and [delete] replies "Enter a
    contact name to delete."; the book stays as it is. *)
Theorem no_arguments_replies (book : AddressBook) :
  add_contact [] book = (Ok "Enter the argument for the command.", book)
  /\ show_birthday [] book
     = (Ok "Enter the argument for the command.", book)
  /\ show_phone [] book = (Ok "Enter a contact name.", book)
  /\ delete_contact [] book = (Ok "Enter a contact name to delete.", book).
Proof. repeat split. Qed.

(** C6 as stated fails: [phone] needs a name, and without one its reply
    is another message. *)
Lemma show_phone_no_arguments :
  show_phone [] [] = (Ok "Enter a contact name.", [])
  /\ fst (show_phone [] []) <> Ok "Enter the argument for the command.".
Proof. split; [reflexivity | discriminate]. Qed.

(** How [change] and [add-birthday] reply when arguments are missing:
    the unpacking raises [ValueError], whose text becomes the reply. *)
Lemma unpack_too_few_replies (book : AddressBook) :
  change_contact ["John"; "1234567890"] book
  = (Ok "not enough values to unpack (expected 3, got 2)", book)
  /\ add_birthday ["John"] book
     = (Ok "not enough values to unpack (expected 2, got 1)", book).
Proof. split; reflexivity. Qed.

(** C7.  A line that begins with [delete], and one that begins with
    [show-birthday], gets the reply for unknown commands, and the book
    stays as it is; the function that deletes a contact is never
    called by the loop. *)
Theorem delete_is_unknown (today : date) (book : AddressBook) :
  main_step today "delete John" book = Printed "Unknown command." book
  /\ main_step today "show-birthday John" book
     = Printed "Unknown command." book.
Proof. split; vm_compute; reflexivity. Qed.

(** The function for [delete] does remove a contact when it is called. *)
Lemma delete_contact_works :
  delete_contact ["John"] [("John", john)] = (Ok "Contact John deleted.", []).
Proof. vm_compute. reflexivity. Qed.

(** C8.  On a record whose birthday is set, [add_birthday] fails with
    the already-set error and leaves the record, and so the birthday
    that was set first, as it was. *)
Theorem Record_add_birthday_twice (r : Record_) (b : Field) (new : string) :
  birthday r = Some b ->
  Record_add_birthday new r
  = (Raise (ValueError "Birthday is already set."), r)
  /\ birthday (snd (Record_add_birthday new r)) = Some b.
Proof.
  intros H. unfold Record_add_birthday, bind, get. rewrite H. simpl.
  split; [reflexivity | assumption].
Qed.

Lemma Record_add_birthday_twice_witness :
  birthday (with_birthday "John" "01.01.2000") = Some (mkField "01.01.2000")
  /\ Record_add_birthday "02.02.2002" (with_birthday "John" "01.01.2000")
     = (Raise (ValueError "Birthday is already set."),
        with_birthday "John" "01.01.2000")
  /\ birthday (snd (Record_add_birthday "02.02.2002"
                      (with_birthday "John" "01.01.2000")))
     = Some (mkField "01.01.2000").
Proof.
  split; [reflexivity|].
  apply (Record_add_birthday_twice (with_birthday "John" "01.01.2000")
           (mkField "01.01.2000") "02.02.2002").
  reflexivity.
Defined.

(** C9.  The query leaves the book as it was, whether it returns a list
    or raises, and so does the command that runs it. *)
Theorem get_upcoming_birthdays_pure (today : date) (book : AddressBook) :
  snd (AddressBook_get_upcoming_birthdays today book) = book
  /\ forall args, snd (birthdays today args book) = book.
Proof.
  split.
  - now rewrite get_upcoming_birthdays_fold.
  - intros args. unfold birthdays, input_error, birthdays_def, bind.
    rewrite get_upcoming_birthdays_fold.
    destruct (fold_result _ _ _) as [[|e l]|[]]; reflexivity.
Qed.

(** C10.  When some record of the book has a birthday on 29 February and
    the year of [today] is not a leap year, the query raises
    [ValueError], and the command [birthdays] replies with the text of
    that error and not with a list; the book stays as it is. *)
Theorem feb29_query_raises (today : date) (book : AddressBook) (r : Record_)
        (b : Field) (y : Z) (args : list string) :
  In r (dict_values book) ->
  birthday r = Some b ->
  strptime_dmy (value b) = Ok (mkDate y 2 29) ->
  is_leap (year today) = false ->
  exists msg,
    AddressBook_get_upcoming_birthdays today book
    = (Raise (ValueError msg), book)
    /\ birthdays today args book = (Ok msg, book).
Proof.
  intros Hin Hb Hp Hleap.
  assert (Hc : record_candidate today r = None).
  { unfold record_candidate, spec_candidate, valid_date, valid_ymd,
      days_in_month. rewrite Hb, Hp. simpl. rewrite Hleap. simpl.
    now rewrite !andb_false_r. }
  destruct (fold_upcoming_raises today _ r b [] Hin Hb Hc) as [msg Hf].
  exists msg. unfold birthdays, input_error, birthdays_def, bind.
  rewrite get_upcoming_birthdays_fold, Hf. split; reflexivity.
Qed.

Lemma feb29_query_raises_witness :
  exists msg,
    AddressBook_get_upcoming_birthdays (mkDate 2025 2 27)
      [("Anna", with_birthday "Anna" "01.03.2000");
       ("Eve", with_birthday "Eve" "29.02.2024")]
    = (Raise (ValueError msg),
       [("Anna", with_birthday "Anna" "01.03.2000");
        ("Eve", with_birthday "Eve" "29.02.2024")])
    /\ birthdays (mkDate 2025 2 27) []
         [("Anna", with_birthday "Anna" "01.03.2000");
          ("Eve", with_birthday "Eve" "29.02.2024")]
       = (Ok msg,
          [("Anna", with_birthday "Anna" "01.03.2000");
           ("Eve", with_birthday "Eve" "29.02.2024")]).
Proof.
  apply (feb29_query_raises (mkDate 2025 2 27) _
           (with_birthday "Eve" "29.02.2024") (mkField "29.02.2024") 2024 []).
  - simpl. auto.
  - reflexivity.
  - reflexivity.
  - reflexivity.
Defined.

(** * Further properties of the code *)

(** ** Stripping and splitting *)

Lemma all_chars_rev_string (p : ascii -> bool) (acc s : string) :
  all_chars p (rev_string acc s) = all_chars p s && all_chars p acc.
Proof.
  revert acc. induction s as [|c s IH]; intros acc; simpl; [reflexivity|].
  rewrite IH. simpl. destruct (p c); destruct (all_chars p s); simpl;
    try reflexivity; now destruct (all_chars p acc).
Qed.

Lemma rev_string_empty (acc s : string) :
  rev_string acc s = "" -> s = "" /\ acc = "".
Proof.
  revert acc. induction s as [|c s IH]; intros acc; simpl; [auto|].
  intros H. apply IH in H as [_ H]. discriminate.
Qed.

Lemma lstrip_empty (s : string) :
  lstrip s = "" <-> all_chars is_space s = true.
Proof.
  induction s as [|c s IH]; simpl; [tauto|].
  destruct (is_space c); simpl; [exact IH | split; discriminate].
Qed.

Lemma lstrip_head (s : string) (c : ascii) (t : string) :
  lstrip s = String c t -> is_space c = false.
Proof.
  induction s as [|c' s IH]; simpl; [discriminate|].
  destruct (is_space c') eqn:Hc; [exact IH | now intros [= <- _]].
Qed.

Lemma strip_empty (s : string) :
  strip s = "" <-> all_chars is_space s = true.
Proof.
  unfold strip. split.
  - intros H. apply rev_string_empty in H as [H _].
    apply lstrip_empty in H. rewrite all_chars_rev_string in H.
    apply andb_true_iff in H as [H _].
    destruct (lstrip s) as [|c t] eqn:Hl; [now apply lstrip_empty|].
    apply lstrip_head in Hl. simpl in H. now rewrite Hl in H.
  - intros H. apply lstrip_empty in H. now rewrite H.
Qed.

Lemma strip_eqb (s : string) :
  String.eqb (strip s) "" = all_chars is_space s.
Proof.
  destruct (String.eqb_spec (strip s) "") as [H|H];
    destruct (all_chars is_space s) eqn:Hs; try reflexivity.
  - apply strip_empty in H. congruence.
  - apply strip_empty in Hs. contradiction.
Qed.

Lemma all_chars_append (p : ascii -> bool) (s t : string) :
  all_chars p (s ++ t) = all_chars p s && all_chars p t.
Proof.
  induction s as [|c s IH]; simpl; [reflexivity|].
  now rewrite IH, andb_assoc.
Qed.

Lemma split_ws_tokens (cur s t : string) :
  all_chars not_space cur = true ->
  In t (split_ws cur s) -> t <> "" /\ all_chars not_space t = true.
Proof.
  revert cur. induction s as [|c s IH]; intros cur Hcur; simpl.
  - destruct cur as [|c' cur']; [contradiction|].
    intros [<- | []]. split.
    + intros H. apply rev_string_empty in H as [H _]. discriminate.
    + rewrite all_chars_rev_string. now rewrite Hcur.
  - destruct (is_space c) eqn:Hc.
    + destruct cur as [|c' cur'].
      * now apply IH.
      * intros [<- | Hin]; [|now apply (IH "")]. split.
        -- intros H. apply rev_string_empty in H as [H _]. discriminate.
        -- rewrite all_chars_rev_string. now rewrite Hcur.
    + apply IH. simpl. unfold not_space at 1. now rewrite Hc.
Qed.

Lemma split_tokens (s t : string) :
  In t (split s) -> t <> "" /\ all_chars not_space t = true.
Proof. now apply split_ws_tokens. Qed.

(** X1.  [Name.__init__] raises "Name cannot be empty." exactly for the
    strings that hold nothing but white space, the empty string among
    them, and keeps every other string as it is, not stripped. *)
Theorem Name_init_spec (v : string) :
  Name_init v
  = if all_chars is_space v
    then Raise (ValueError "Name cannot be empty.")
    else Ok (mkField v).
Proof. unfold Name_init. now rewrite strip_eqb. Qed.

(** X2.  The arguments that [parse_input] returns are never empty and
    hold no white space; for such an argument [Phone] succeeds exactly
    when it is ten decimal digits. *)
Theorem parse_input_phone_argument (line cmd : string) (args : list string)
        (a : string) :
  parse_input line = Ok (cmd, args) ->
  In a args ->
  a <> "" /\ all_chars not_space a = true
  /\ (Phone_init a = Ok (mkField a) <-> ten_digits a).
Proof.
  unfold parse_input. intros H Hin.
  destruct (split (strip line)) as [|c l] eqn:Hs; [discriminate|].
  injection H as _ <-.
  assert (Ht : In a (split (strip line))) by (rewrite Hs; now right).
  apply split_tokens in Ht as [Hne Hns].
  split; [assumption|]. split; [assumption|]. split.
  - unfold Phone_init. destruct (re_match_phone a) eqn:Hm; [|discriminate].
    intros _. apply re_match_phone_spec in Hm as [Hm | (d & _ & ->)];
      [assumption|].
    rewrite all_chars_append in Hns. apply andb_true_iff in Hns as [_ Hns].
    vm_compute in Hns. discriminate Hns.
  - intros Ht. unfold Phone_init.
    replace (re_match_phone a) with true; [reflexivity|].
    symmetry. apply re_match_phone_spec. now left.
Qed.

Lemma parse_input_phone_argument_witness :
  parse_input "add John 1234567890" = Ok ("add", ["John"; "1234567890"])
  /\ In "1234567890" ["John"; "1234567890"]
  /\ "1234567890" <> ""
  /\ all_chars not_space "1234567890" = true
  /\ (Phone_init "1234567890" = Ok (mkField "1234567890")
      <-> ten_digits "1234567890").
Proof.
  split; [reflexivity|]. split; [simpl; auto|].
  apply (parse_input_phone_argument "add John 1234567890" "add"
           ["John"; "1234567890"] "1234567890");
    [reflexivity | simpl; auto].
Defined.

(** X3.  A line of nothing but white space, the empty line among them,
    is answered with "Please enter a valid command." and the book stays
    as it is. *)
Theorem main_step_blank (today : date) (line : string) (book : AddressBook) :
  all_chars is_space line = true ->
  main_step today line book = Printed "Please enter a valid command." book.
Proof. intros H. unfold main_step. now rewrite strip_eqb, H. Qed.

Lemma main_step_blank_witness :
  all_chars is_space "   " = true
  /\ main_step today_ex "   " [("John", john)]
     = Printed "Please enter a valid command." [("John", john)].
Proof.
  split; [reflexivity|].
  apply (main_step_blank today_ex "   " [("John", john)]). reflexivity.
Defined.

(** ** Phones of a record *)

Lemma remove_first_absent (phone : string) (l : list Field) :
  ~ In phone (map value l) -> remove_first phone l = l.
Proof.
  induction l as [|p l IH]; simpl; [reflexivity|]. intros H.
  destruct (String.eqb_spec (value p) phone) as [E|E]; [tauto|].
  rewrite IH; tauto.
Qed.

Lemma remove_first_present (phone : string) (l : list Field) :
  In phone (map value l) ->
  exists l1 p l2,
    l = (l1 ++ p :: l2)%list /\ value p = phone
    /\ ~ In phone (map value l1)
    /\ remove_first phone l = (l1 ++ l2)%list.
Proof.
  induction l as [|p l IH]; simpl; [contradiction|]. intros H.
  destruct (String.eqb_spec (value p) phone) as [E|E].
  - exists [], p, l. simpl. auto.
  - destruct H as [H|H]; [contradiction|].
    destruct (IH H) as (l1 & q & l2 & -> & Hq & Hn & Hr).
    exists (p :: l1), q, l2. simpl. rewrite Hr.
    repeat split; try assumption. intros [F|F]; tauto.
Qed.

Lemma find_phone_some (phone : string) (l : list Field) :
  In phone (map value l) ->
  exists p, find (fun p => String.eqb (value p) phone) l = Some p.
Proof.
  induction l as [|p l IH]; simpl; [contradiction|]. intros H.
  destruct (String.eqb_spec (value p) phone) as [E|E]; [eauto|].
  destruct H as [H|H]; [contradiction | auto].
Qed.

Lemma find_phone_none (phone : string) (l : list Field) :
  find (fun p => String.eqb (value p) phone) l = None ->
  ~ In phone (map value l).
Proof.
  induction l as [|p l IH]; simpl; [tauto|].
  destruct (String.eqb_spec (value p) phone) as [E|E]; [discriminate|].
  intros H [F|F]; [contradiction | now apply IH].
Qed.

Lemma set_phones_same (r : Record_) : set_phones r (phones r) = r.
Proof. now destruct r. Qed.

Lemma Record_remove_phone_eq (phone : string) (r : Record_) :
  Record_remove_phone phone r
  = (Ok tt, set_phones r (remove_first phone (phones r))).
Proof.
  unfold Record_remove_phone, Record_find_phone, bind, get, ret, put.
  destruct (find _ (phones r)) eqn:Hf; [reflexivity|].
  apply find_phone_none in Hf.
  now rewrite remove_first_absent, set_phones_same.
Qed.

(** X4.  [Record.find_phone] does not change the record; what it
    returns is a phone of the record with the value asked for, or
    nothing when no phone of the record has that value. *)
Theorem Record_find_phone_spec (phone : string) (r : Record_) :
  exists o,
    Record_find_phone phone r = (Ok o, r)
    /\ match o with
       | Some p => In p (phones r) /\ value p = phone
       | None => ~ In phone (map value (phones r))
       end.
Proof.
  unfold Record_find_phone, bind, get, ret.
  destruct (find _ (phones r)) as [p|] eqn:Hf.
  - exists (Some p). split; [reflexivity|].
    apply find_some in Hf as [Hin Hv]. apply String.eqb_eq in Hv. auto.
  - exists None. split; [reflexivity | now apply find_phone_none].
Qed.

(** X5.  [Record.remove_phone] never raises and leaves the name and the
    birthday alone.  When no phone has the value, the record stays as
    it is; otherwise the first phone with that value goes and the
    others keep their order. *)
Theorem Record_remove_phone_spec (phone : string) (r : Record_) :
  exists r',
    Record_remove_phone phone r = (Ok tt, r')
    /\ name r' = name r /\ birthday r' = birthday r
    /\ ((~ In phone (map value (phones r)) /\ r' = r)
        \/ exists l1 p l2,
            phones r = (l1 ++ p :: l2)%list /\ value p = phone
            /\ ~ In phone (map value l1)
            /\ phones r' = (l1 ++ l2)%list).
Proof.
  exists (set_phones r (remove_first phone (phones r))).
  split; [apply Record_remove_phone_eq|]. split; [reflexivity|].
  split; [reflexivity|].
  destruct (in_dec string_dec phone (map value (phones r))) as [H|H].
  - right. destruct (remove_first_present _ _ H)
      as (l1 & p & l2 & Hl & Hp & Hn & Hr).
    exists l1, p, l2. simpl. auto.
  - left. split; [assumption|].
    now rewrite remove_first_absent, set_phones_same.
Qed.

(** X6.  [Record.edit_phone], when the record has the old phone and the
    new one is valid: the first phone with the old value goes, the new
    phone is put at the end and not in its place, the number of phones
    is the same, and the name and the birthday stay as they are. *)
Theorem Record_edit_phone_ok (old_phone new_phone : string) (r : Record_) :
  In old_phone (map value (phones r)) ->
  re_match_phone new_phone = true ->
  exists r' l1 p l2,
    Record_edit_phone old_phone new_phone r = (Ok tt, r')
    /\ phones r = (l1 ++ p :: l2)%list /\ value p = old_phone
    /\ ~ In old_phone (map value l1)
    /\ phones r' = (l1 ++ l2 ++ [mkField new_phone])%list
    /\ List.length (phones r') = List.length (phones r)
    /\ name r' = name r /\ birthday r' = birthday r.
Proof.
  intros Hold Hnew.
  destruct (remove_first_present _ _ Hold) as (l1 & p & l2 & Hl & Hp & Hn & Hr).
  destruct (find_phone_some _ _ Hold) as [q Hq].
  exists (set_phones r (l1 ++ l2 ++ [mkField new_phone])%list), l1, p, l2.
  split.
  - unfold Record_edit_phone, bind.
    unfold Record_find_phone at 1. unfold bind, get, ret. rewrite Hq.
    rewrite Record_remove_phone_eq.
    unfold Record_add_phone, bind, lift, get, put, Phone_init.
    rewrite Hnew. simpl. rewrite Hr. now rewrite app_assoc.
  - split; [exact Hl|]. split; [exact Hp|]. split; [exact Hn|].
    split; [reflexivity|]. split; [|split; reflexivity].
    cbn [phones set_phones]. rewrite Hl, !length_app. simpl. lia.
Qed.

Lemma Record_edit_phone_ok_witness :
  exists r' l1 p l2,
    Record_edit_phone "1111111111" "3333333333"
      (mkRecord (mkField "John")
         [mkField "1111111111"; mkField "2222222222"] None)
    = (Ok tt, r')
    /\ phones (mkRecord (mkField "John")
                 [mkField "1111111111"; mkField "2222222222"] None)
       = (l1 ++ p :: l2)%list
    /\ value p = "1111111111"
    /\ ~ In "1111111111" (map value l1)
    /\ phones r' = (l1 ++ l2 ++ [mkField "3333333333"])%list
    /\ List.length (phones r')
       = List.length
           (phones (mkRecord (mkField "John")
                      [mkField "1111111111"; mkField "2222222222"] None))
    /\ name r' = mkField "John" /\ birthday r' = None.
Proof.
  apply (Record_edit_phone_ok "1111111111" "3333333333"
           (mkRecord (mkField "John")
              [mkField "1111111111"; mkField "2222222222"] None)).
  - simpl. auto.
  - reflexivity.
Defined.

(** ** The dictionary of the book *)

Lemma dict_get_set (k k' : string) (v : Record_) (d : AddressBook) :
  dict_get k (dict_set k' v d)
  = if String.eqb k k' then Some v else dict_get k d.
Proof.
  induction d as [|[k0 v0] d IH]; simpl.
  - rewrite (String.eqb_sym k' k). reflexivity.
  - destruct (String.eqb_spec k0 k') as [->|Hk0]; simpl.
    + rewrite (String.eqb_sym k' k).
      destruct (String.eqb_spec k k'); reflexivity.
    + destruct (String.eqb_spec k0 k) as [->|Hk].
      * destruct (String.eqb_spec k k'); [congruence | reflexivity].
      * exact IH.
Qed.

Lemma keys_unique_set (k : string) (v : Record_) (d : AddressBook) :
  keys_unique d = true -> keys_unique (dict_set k v d) = true.
Proof.
  induction d as [|[k0 v0] d IH]; simpl; [reflexivity|].
  destruct (dict_get k0 d) eqn:Hg; [discriminate|]. intros Hu.
  destruct (String.eqb_spec k0 k) as [->|Hk]; simpl.
  - now rewrite Hg.
  - rewrite dict_get_set.
    destruct (String.eqb_spec k0 k); [contradiction|].
    rewrite Hg. now apply IH.
Qed.

Lemma keys_unique_set_eq (k : string) (v : Record_) (d : AddressBook) :
  keys_unique (dict_set k v d) = keys_unique d.
Proof.
  induction d as [|[k0 v0] d IH]; simpl; [reflexivity|].
  destruct (String.eqb_spec k0 k) as [->|Hk]; simpl; [reflexivity|].
  rewrite dict_get_set.
  destruct (String.eqb_spec k0 k); [contradiction|].
  now rewrite IH.
Qed.

Lemma dict_keys_set (k : string) (v : Record_) (d : AddressBook) :
  map fst (dict_set k v d)
  = match dict_get k d with
    | Some _ => map fst d
    | None => (map fst d ++ [k])%list
    end.
Proof.
  induction d as [|[k0 v0] d IH]; simpl; [reflexivity|].
  destruct (String.eqb_spec k0 k) as [->|Hk]; simpl; [reflexivity|].
  rewrite IH. now destruct (dict_get k d).
Qed.

Lemma dict_get_del_other (k k' : string) (d : AddressBook) :
  k <> k' -> dict_get k (dict_del k' d) = dict_get k d.
Proof.
  intros Hk. induction d as [|[k0 v0] d IH]; simpl; [reflexivity|].
  destruct (String.eqb_spec k0 k') as [->|Hk0]; simpl.
  - destruct (String.eqb_spec k' k); [congruence | reflexivity].
  - destruct (String.eqb_spec k0 k); [reflexivity | exact IH].
Qed.

Lemma dict_get_del_same (k : string) (d : AddressBook) :
  keys_unique d = true -> dict_get k (dict_del k d) = None.
Proof.
  induction d as [|[k0 v0] d IH]; simpl; [reflexivity|].
  destruct (dict_get k0 d) eqn:Hg; [discriminate|]. intros Hu.
  destruct (String.eqb_spec k0 k) as [->|Hk]; simpl; [assumption|].
  destruct (String.eqb_spec k0 k); [contradiction | now apply IH].
Qed.

Lemma keys_unique_del (k : string) (d : AddressBook) :
  keys_unique d = true -> keys_unique (dict_del k d) = true.
Proof.
  induction d as [|[k0 v0] d IH]; simpl; [reflexivity|].
  destruct (dict_get k0 d) eqn:Hg; [discriminate|]. intros Hu.
  destruct (String.eqb_spec k0 k) as [->|Hk]; simpl; [assumption|].
  rewrite dict_get_del_other by assumption. rewrite Hg. now apply IH.
Qed.

Lemma dict_get_none_keys (k : string) (d : AddressBook) :
  dict_get k d = None -> ~ In k (map fst d).
Proof.
  induction d as [|[k0 v0] d IH]; simpl; [tauto|].
  destruct (String.eqb_spec k0 k) as [->|Hk]; [discriminate|].
  intros H [F|F]; [contradiction | now apply IH].
Qed.

Lemma dict_keys_del (k : string) (d : AddressBook) :
  keys_unique d = true ->
  map fst (dict_del k d) = filter (fun k' => negb (String.eqb k' k)) (map fst d).
Proof.
  induction d as [|[k0 v0] d IH]; simpl; [reflexivity|].
  destruct (dict_get k0 d) eqn:Hg; [discriminate|]. intros Hu.
  destruct (String.eqb_spec k0 k) as [->|Hk]; simpl.
  - apply dict_get_none_keys in Hg. clear IH Hu.
    induction d as [|[k1 v1] d IH]; simpl; [reflexivity|].
    simpl in Hg. destruct (String.eqb_spec k1 k) as [->|Hk1]; simpl.
    + tauto.
    + f_equal. apply IH. tauto.
  - f_equal. now apply IH.
Qed.

(** X7.  Looking a name up after [add_record]: the name of the record
    added gives that record, also when the name was in the book before
    (the record that was there is replaced), and every other name gives
    what it gave before. *)
Theorem add_record_then_find (record : Record_) (book : AddressBook)
        (k : string) :
  (AddressBook_add_record record ;;; AddressBook_find k) book
  = (Ok (if String.eqb k (value (name record)) then Some record
         else dict_get k book),
     snd (AddressBook_add_record record book)).
Proof.
  unfold AddressBook_add_record, AddressBook_find, bind, get, put, ret.
  simpl. now rewrite dict_get_set.
Qed.

(** X8.  [add_record] keeps the order of the names: a name that the
    book has keeps its place, a new name goes to the end; and the keys
    are distinct afterwards exactly when they were before. *)
Theorem add_record_order (record : Record_) (book : AddressBook) :
  let book' := snd (AddressBook_add_record record book) in
  map fst book'
  = (if existsb (String.eqb (value (name record))) (map fst book)
     then map fst book
     else map fst book ++ [value (name record)])%list
  /\ keys_unique book' = keys_unique book.
Proof.
  unfold AddressBook_add_record, bind, get, put. simpl. split.
  - rewrite dict_keys_set.
    destruct (dict_get (value (name record)) book) eqn:Hg.
    + replace (existsb _ _) with true; [reflexivity|]. symmetry.
      apply existsb_exists. exists (value (name record)).
      split; [|apply String.eqb_refl].
      clear -Hg. induction book as [|[k0 v0] d IH]; simpl in *;
        [discriminate|].
      destruct (String.eqb_spec k0 (value (name record))); auto.
    + replace (existsb _ _) with false; [reflexivity|]. symmetry.
      apply dict_get_none_keys in Hg.
      destruct (existsb _ _) eqn:He; [|reflexivity].
      apply existsb_exists in He as (x & Hin & Hx).
      apply String.eqb_eq in Hx. subst x. contradiction.
  - apply keys_unique_set_eq.
Qed.

(** X9.  [delete_contact] with a name, on a book with distinct keys:
    the reply says that the contact is deleted when the book has the
    name and that it does not exist otherwise; afterwards the name gives
    nothing, every other name gives what it gave before, and the names
    that are left keep their order. *)
Theorem delete_contact_spec (nm : string) (rest : list string)
        (book : AddressBook) :
  keys_unique book = true ->
  exists book',
    delete_contact (nm :: rest) book
    = (Ok (match dict_get nm book with
           | Some _ => "Contact " ++ nm ++ " deleted."
           | None => "This contact does not exist."
           end), book')
    /\ (forall k, dict_get k book'
                  = if String.eqb k nm then None else dict_get k book)
    /\ keys_unique book' = true
    /\ map fst book'
       = filter (fun k => negb (String.eqb k nm)) (map fst book).
Proof.
  intros Hu.
  unfold delete_contact, input_error, delete_contact_def,
    AddressBook_delete, index, bind, lift, get, put, raise, ret. simpl.
  destruct (dict_get nm book) eqn:Hg.
  - exists (dict_del nm book). split; [reflexivity|]. split; [|split].
    + intros k. destruct (String.eqb_spec k nm) as [->|Hk].
      * now apply dict_get_del_same.
      * now apply dict_get_del_other.
    + now apply keys_unique_del.
    + now apply dict_keys_del.
  - exists book. split; [reflexivity|]. split; [|split].
    + intros k. destruct (String.eqb_spec k nm) as [->|Hk];
        [assumption | reflexivity].
    + assumption.
    + apply dict_get_none_keys in Hg. clear Hu.
      induction book as [|[k0 v0] d IH]; simpl in *; [reflexivity|].
      destruct (String.eqb_spec k0 nm) as [->|Hk]; simpl; [tauto|].
      f_equal. apply IH. tauto.
Qed.

Lemma delete_contact_spec_witness :
  keys_unique [("John", john); ("Anna", with_birthday "Anna" "12.06.2024")]
  = true
  /\ exists book',
      delete_contact ["John"]
        [("John", john); ("Anna", with_birthday "Anna" "12.06.2024")]
      = (Ok "Contact John deleted.", book')
      /\ (forall k, dict_get k book'
                    = if String.eqb k "John" then None
                      else dict_get k
                             [("John", john);
                              ("Anna", with_birthday "Anna" "12.06.2024")])
      /\ keys_unique book' = true
      /\ map fst book' = ["Anna"].
Proof.
  split; [reflexivity|].
  apply (delete_contact_spec "John" []
           [("John", john); ("Anna", with_birthday "Anna" "12.06.2024")]).
  reflexivity.
Defined.

(** ** What the methods of a record return *)

Lemma Record_add_phone_eq (phone : string) (r : Record_) :
  Record_add_phone phone r
  = if re_match_phone phone
    then (Ok tt, set_phones r (phones r ++ [mkField phone])%list)
    else (Raise (ValueError "Phone must contain exactly 10 digits."), r).
Proof.
  unfold Record_add_phone, bind, lift, get, put, Phone_init.
  now destruct (re_match_phone phone).
Qed.

Lemma Record_edit_phone_eq (old_phone new_phone : string) (r : Record_) :
  Record_edit_phone old_phone new_phone r
  = match find (fun p => String.eqb (value p) old_phone) (phones r) with
    | None => (Raise (ValueError "Old phone not found."), r)
    | Some _ =>
        if re_match_phone new_phone
        then (Ok tt,
              set_phones r (remove_first old_phone (phones r)
                            ++ [mkField new_phone])%list)
        else (Raise (ValueError "Phone must contain exactly 10 digits."),
              set_phones r (remove_first old_phone (phones r)))
    end.
Proof.
  unfold Record_edit_phone, bind. unfold Record_find_phone at 1.
  unfold bind, get, ret, raise.
  destruct (find _ (phones r)); [|reflexivity].
  rewrite Record_remove_phone_eq, Record_add_phone_eq.
  now destruct (re_match_phone new_phone).
Qed.

Lemma Record_add_birthday_eq (b : string) (r : Record_) :
  Record_add_birthday b r
  = match birthday r with
    | Some _ => (Raise (ValueError "Birthday is already set."), r)
    | None =>
        match strptime_dmy b with
        | Ok _ => (Ok tt, set_birthday r (Some (mkField b)))
        | Raise _ =>
            (Raise (ValueError "Invalid date format. Use DD.MM.YYYY."), r)
        end
    end.
Proof.
  unfold Record_add_birthday, bind, get, raise, lift, put, Birthday_init.
  destruct (birthday r); [reflexivity|].
  destruct (strptime_dmy_cases b) as [[bd ->] | [msg ->]]; reflexivity.
Qed.

Lemma Record_init_eq (nm : string) :
  Record_init nm
  = if all_chars is_space nm
    then Raise (ValueError "Name cannot be empty.")
    else Ok (mkRecord (mkField nm) [] None).
Proof.
  unfold Record_init, rbind, Name_init. rewrite strip_eqb.
  now destruct (all_chars is_space nm).
Qed.

(** ** What the book holds, kept by the dictionary *)

Lemma book_ok_set (k : string) (v : Record_) (book : AddressBook) :
  book_ok book = true -> record_ok k v = true ->
  book_ok (dict_set k v book) = true.
Proof.
  unfold book_ok. intros H Hv. apply andb_true_iff in H as [Hu Hf].
  apply andb_true_iff. split; [now apply keys_unique_set|].
  clear Hu. induction book as [|[k0 v0] d IH]; simpl in *.
  - now rewrite Hv.
  - apply andb_true_iff in Hf as [H0 Hf].
    destruct (String.eqb_spec k0 k) as [->|Hk]; simpl.
    + now rewrite Hv, Hf.
    + now rewrite H0, IH.
Qed.

Lemma book_ok_del (k : string) (book : AddressBook) :
  book_ok book = true -> book_ok (dict_del k book) = true.
Proof.
  unfold book_ok. intros H. apply andb_true_iff in H as [Hu Hf].
  apply andb_true_iff. split; [now apply keys_unique_del|].
  clear Hu. induction book as [|[k0 v0] d IH]; simpl in *; [reflexivity|].
  apply andb_true_iff in Hf as [H0 Hf].
  destruct (String.eqb_spec k0 k) as [->|Hk]; simpl; [assumption|].
  now rewrite H0, IH.
Qed.

Lemma book_ok_get (k : string) (r : Record_) (book : AddressBook) :
  book_ok book = true -> dict_get k book = Some r -> record_ok k r = true.
Proof.
  unfold book_ok. intros H. apply andb_true_iff in H as [_ Hf].
  induction book as [|[k0 v0] d IH]; simpl in *; [discriminate|].
  apply andb_true_iff in Hf as [H0 Hf].
  destruct (String.eqb_spec k0 k) as [->|Hk]; [|now apply IH].
  now intros [= <-].
Qed.

Lemma forallb_remove_first (f : Field -> bool) (phone : string)
      (l : list Field) :
  forallb f l = true -> forallb f (remove_first phone l) = true.
Proof.
  induction l as [|p l IH]; simpl; [reflexivity|]. intros H.
  apply andb_true_iff in H as [Hp Hl].
  destruct (String.eqb (value p) phone); [assumption|].
  simpl. now rewrite Hp, IH.
Qed.

Lemma record_ok_phones (k : string) (r : Record_) (ps : list Field) :
  record_ok k r = true ->
  forallb (fun p => re_match_phone (value p)) ps = true ->
  record_ok k (set_phones r ps) = true.
Proof.
  unfold record_ok. simpl. intros H Hps.
  apply andb_true_iff in H as [H Hd]. apply andb_true_iff in H as [H Hc].
  now rewrite H, Hps, Hd.
Qed.

Lemma record_ok_has_phones (k : string) (r : Record_) :
  record_ok k r = true ->
  forallb (fun p => re_match_phone (value p)) (phones r) = true.
Proof.
  unfold record_ok. intros H.
  apply andb_true_iff in H as [H _]. now apply andb_true_iff in H as [_ H].
Qed.

Lemma Record_add_phone_ok (k phone : string) (r : Record_) :
  record_ok k r = true ->
  record_ok k (snd (Record_add_phone phone r)) = true.
Proof.
  intros H. rewrite Record_add_phone_eq.
  destruct (re_match_phone phone) eqn:Hp; simpl; [|assumption].
  apply record_ok_phones; [assumption|].
  rewrite forallb_app, (record_ok_has_phones k r H). simpl. now rewrite Hp.
Qed.

Lemma Record_edit_phone_keeps_ok (k old_phone new_phone : string)
      (r : Record_) :
  record_ok k r = true ->
  record_ok k (snd (Record_edit_phone old_phone new_phone r)) = true.
Proof.
  intros H. rewrite Record_edit_phone_eq.
  pose proof (record_ok_has_phones k r H) as Hps.
  destruct (find _ (phones r)); simpl; [|assumption].
  destruct (re_match_phone new_phone) eqn:Hp; simpl;
    apply record_ok_phones; try assumption.
  - rewrite forallb_app, forallb_remove_first by assumption.
    simpl. now rewrite Hp.
  - now apply forallb_remove_first.
Qed.

Lemma Record_add_birthday_keeps_ok (k b : string) (r : Record_) :
  record_ok k r = true ->
  record_ok k (snd (Record_add_birthday b r)) = true.
Proof.
  intros H. rewrite Record_add_birthday_eq.
  destruct (birthday r) eqn:Hb; simpl; [assumption|].
  destruct (strptime_dmy b) eqn:Hp; simpl; [|assumption].
  unfold record_ok in *. simpl. rewrite Hp.
  apply andb_true_iff in H as [H _]. now rewrite H.
Qed.

Lemma record_ok_new (nm : string) :
  all_chars is_space nm = false ->
  record_ok nm (mkRecord (mkField nm) [] None) = true.
Proof.
  intros H. unfold record_ok. simpl.
  now rewrite String.eqb_refl, strip_eqb, H.
Qed.

(** ** What the commands return *)

Lemma add_contact_cases (args : list string) (book : AddressBook) :
  exists msg book',
    add_contact args book = (Ok msg, book')
    /\ (book_ok book = true -> book_ok book' = true).
Proof.
  unfold add_contact, input_error, add_contact_def, index,
    AddressBook_find, AddressBook_add_record, on_record.
  destruct args as [|nm rest]; [simpl; eauto|].
  unfold bind, lift, get, put, ret. simpl.
  destruct (dict_get nm book) as [r|] eqn:Hg.
  - destruct rest as [|p rest]; simpl; [eauto|].
    destruct p as [|c p]; simpl; [eauto|].
    rewrite Record_add_phone_eq.
    destruct (re_match_phone (String c p)) eqn:Hp.
    + do 2 eexists. split; [reflexivity|]. intros Hok.
      apply book_ok_set; [assumption|].
      pose proof (Record_add_phone_ok nm (String c p) r
                    (book_ok_get _ _ _ Hok Hg)) as H.
      now rewrite Record_add_phone_eq, Hp in H.
    + do 2 eexists. split; [reflexivity|]. intros Hok.
      now rewrite dict_set_same.
  - rewrite Record_init_eq.
    destruct (all_chars is_space nm) eqn:Hn; [simpl; eauto|]. simpl.
    destruct rest as [|p rest]; simpl.
    + do 2 eexists. split; [reflexivity|]. intros Hok.
      apply book_ok_set; [assumption | now apply record_ok_new].
    + destruct p as [|c p]; simpl.
      * do 2 eexists. split; [reflexivity|]. intros Hok.
        apply book_ok_set; [assumption | now apply record_ok_new].
      * rewrite Record_add_phone_eq.
        destruct (re_match_phone (String c p)) eqn:Hp.
        -- do 2 eexists. split; [reflexivity|]. intros Hok.
           apply book_ok_set;
             [apply book_ok_set; [assumption | now apply record_ok_new]|].
           pose proof (Record_add_phone_ok nm (String c p) _
                         (record_ok_new nm Hn)) as H.
           now rewrite Record_add_phone_eq, Hp in H.
        -- do 2 eexists. split; [reflexivity|]. intros Hok.
           apply book_ok_set;
             [apply book_ok_set; [assumption | now apply record_ok_new]|].
           now apply record_ok_new.
Qed.

Lemma change_contact_cases (args : list string) (book : AddressBook) :
  exists msg book',
    change_contact args book = (Ok msg, book')
    /\ (book_ok book = true -> book_ok book' = true).
Proof.
  unfold change_contact, input_error, change_contact_def,
    AddressBook_find, on_record, unpack3, bind, lift, get, ret.
  destruct args as [|nm [|old_phone [|new_phone [|x rest]]]];
    try (simpl; eauto; fail).
  simpl.
  destruct (dict_get nm book) as [r|] eqn:Hg; [|eauto].
  pose proof (fun H => Record_edit_phone_keeps_ok nm old_phone new_phone r
                         (book_ok_get _ _ _ H Hg)) as Hr.
  destruct (Record_edit_phone old_phone new_phone r) as [[[]|e] r'] eqn:He;
    simpl in Hr.
  - do 2 eexists. split; [reflexivity|]. intros Hok.
    apply book_ok_set; auto.
  - rewrite Record_edit_phone_eq in He.
    destruct (find _ (phones r)).
    + destruct (re_match_phone new_phone); [discriminate|].
      injection He as <- <-.
      do 2 eexists. split; [reflexivity|]. intros Hok.
      apply book_ok_set; auto.
    + injection He as <- <-.
      do 2 eexists. split; [reflexivity|]. intros Hok.
      apply book_ok_set; auto.
Qed.

Lemma add_birthday_cases (args : list string) (book : AddressBook) :
  exists msg book',
    add_birthday args book = (Ok msg, book')
    /\ (book_ok book = true -> book_ok book' = true).
Proof.
  unfold add_birthday, input_error, add_birthday_def,
    AddressBook_find, on_record, unpack2, bind, lift, get, ret.
  destruct args as [|nm [|b [|x rest]]]; try (simpl; eauto; fail).
  simpl.
  destruct (dict_get nm book) as [r|] eqn:Hg; [|eauto].
  pose proof (fun H => Record_add_birthday_keeps_ok nm b r
                         (book_ok_get _ _ _ H Hg)) as Hr.
  rewrite Record_add_birthday_eq in *.
  destruct (birthday r).
  - do 2 eexists. split; [reflexivity|]. intros Hok.
    apply book_ok_set; auto.
  - destruct (strptime_dmy b).
    + do 2 eexists. split; [reflexivity|]. intros Hok.
      apply book_ok_set; auto.
    + do 2 eexists. split; [reflexivity|]. intros Hok.
      apply book_ok_set; auto.
Qed.

Lemma delete_contact_cases (args : list string) (book : AddressBook) :
  exists msg book',
    delete_contact args book = (Ok msg, book')
    /\ (book_ok book = true -> book_ok book' = true).
Proof.
  unfold delete_contact, input_error, delete_contact_def,
    AddressBook_delete, index, bind, lift, get, put, raise, ret.
  destruct args as [|nm rest]; [simpl; eauto|]. simpl.
  destruct (dict_get nm book) eqn:Hg.
  - do 2 eexists. split; [reflexivity|]. apply book_ok_del.
  - eauto.
Qed.

Lemma show_phone_cases (args : list string) (book : AddressBook) :
  exists msg, show_phone args book = (Ok msg, book).
Proof.
  unfold show_phone, input_error, show_phone_def, index, AddressBook_find,
    bind, lift, get, ret.
  destruct args as [|nm rest]; [simpl; eauto|]. simpl.
  destruct (dict_get nm book); eauto.
Qed.

Lemma show_birthday_cases (args : list string) (book : AddressBook) :
  exists x, show_birthday args book = (x, book)
            /\ match x with
               | Ok _ => True
               | Raise e =>
                   e = AttributeError "'str' object has no attribute 'strftime'"
               end.
Proof.
  unfold show_birthday, input_error, show_birthday_def, index,
    AddressBook_find, str_strftime, bind, lift, get, ret.
  destruct args as [|nm rest];
    [simpl; eexists; split; [reflexivity | exact I]|]. simpl.
  destruct (dict_get nm book) as [[n ps [b|]]|]; simpl;
    eexists; (split; [reflexivity | simpl; auto]).
Qed.

Lemma birthdays_cases (today : date) (args : list string)
      (book : AddressBook) :
  exists msg, birthdays today args book = (Ok msg, book).
Proof.
  unfold birthdays, input_error, birthdays_def, bind.
  rewrite get_upcoming_birthdays_fold.
  destruct (fold_result (upcoming_body today) (dict_values book) [])
    as [[|e0 l]|e] eqn:Hf; [simpl; eauto | simpl; eauto |].
  assert (He : exists msg, e = ValueError msg).
  { clear -Hf. revert Hf. generalize (@nil entry) as acc.
    induction (dict_values book) as [|r l IH]; intros acc; simpl;
      [discriminate|].
    destruct (upcoming_body_cases today r acc) as [[acc' H] | [msg H]];
      rewrite H; [apply IH | intros [= <-]; eauto]. }
  destruct He as [msg ->]. simpl. eauto.
Qed.

Lemma show_all_frame (book : AddressBook) : snd (show_all book) = book.
Proof.
  unfold show_all, bind, get, ret, lift. now destruct book.
Qed.

(** X10.  Six commands always come back with a reply, whatever the
    arguments and the book are: no exception leaves [add_contact],
    [change_contact], [show_phone], [delete_contact], [add_birthday] or
    [birthdays]. *)
Theorem commands_always_reply (today : date) (args : list string)
        (book : AddressBook) :
  (exists msg, fst (add_contact args book) = Ok msg)
  /\ (exists msg, fst (change_contact args book) = Ok msg)
  /\ (exists msg, fst (show_phone args book) = Ok msg)
  /\ (exists msg, fst (delete_contact args book) = Ok msg)
  /\ (exists msg, fst (add_birthday args book) = Ok msg)
  /\ (exists msg, fst (birthdays today args book) = Ok msg).
Proof.
  destruct (add_contact_cases args book) as (m1 & b1 & -> & _).
  destruct (change_contact_cases args book) as (m2 & b2 & -> & _).
  destruct (show_phone_cases args book) as (m3 & ->).
  destruct (delete_contact_cases args book) as (m4 & b4 & -> & _).
  destruct (add_birthday_cases args book) as (m5 & b5 & -> & _).
  destruct (birthdays_cases today args book) as (m6 & ->).
  simpl. repeat split; eauto.
Qed.

(** X11.  The commands that change the book keep what it holds in
    order: distinct names, every record under its own name, a name that
    is not blank, phones that [Phone] accepts, a birthday that can be
    read.  This holds also when the command ends in an error. *)
Theorem commands_keep_book_ok (args : list string) (book : AddressBook) :
  book_ok book = true ->
  book_ok (snd (add_contact args book)) = true
  /\ book_ok (snd (change_contact args book)) = true
  /\ book_ok (snd (delete_contact args book)) = true
  /\ book_ok (snd (add_birthday args book)) = true.
Proof.
  intros H.
  destruct (add_contact_cases args book) as (m1 & b1 & -> & H1).
  destruct (change_contact_cases args book) as (m2 & b2 & -> & H2).
  destruct (delete_contact_cases args book) as (m4 & b4 & -> & H4).
  destruct (add_birthday_cases args book) as (m5 & b5 & -> & H5).
  simpl. auto.
Qed.

Lemma commands_keep_book_ok_witness :
  book_ok [("John", john)] = true
  /\ book_ok (snd (add_contact ["Bob"; "12345"] [("John", john)])) = true
  /\ book_ok (snd (change_contact ["Bob"; "12345"] [("John", john)])) = true
  /\ book_ok (snd (delete_contact ["Bob"; "12345"] [("John", john)])) = true
  /\ book_ok (snd (add_birthday ["Bob"; "12345"] [("John", john)])) = true.
Proof.
  split; [reflexivity|].
  apply (commands_keep_book_ok ["Bob"; "12345"] [("John", john)]).
  reflexivity.
Defined.

(** X12.  The commands that only show something leave the book as it
    is, whether they reply or raise: [show_phone], [show_birthday] and
    [show_all]. *)
Theorem readers_keep_book (args : list string) (book : AddressBook) :
  snd (show_phone args book) = book
  /\ snd (show_birthday args book) = book
  /\ snd (show_all book) = book.
Proof.
  destruct (show_phone_cases args book) as (m & ->).
  destruct (show_birthday_cases args book) as (x & -> & _).
  simpl. repeat split. apply show_all_frame.
Qed.

Lemma main_step_book_ok (today : date) (line : string) (book : AddressBook) :
  book_ok book = true ->
  match main_step today line book with
  | Printed _ book' => book_ok book' = true
  | Finished _ => True
  | Uncaught _ book' => book_ok book' = true
  end.
Proof.
  intros H. unfold main_step.
  destruct (String.eqb (strip line) ""); [assumption|].
  destruct (parse_input (strip line)) as [[command args]|e]; [|assumption].
  destruct (_ || _); [exact I|].
  destruct (String.eqb command "hello"); [assumption|].
  unfold commands, lookup.
  repeat match goal with
    | |- context [if String.eqb ?a command then _ else _] =>
        destruct (String.eqb a command)
    end.
  - destruct (add_contact_cases args book) as (m & b & -> & Hb). auto.
  - destruct (change_contact_cases args book) as (m & b & -> & Hb). auto.
  - destruct (show_phone_cases args book) as (m & ->). assumption.
  - unfold raise. assumption.
  - destruct (show_birthday_cases args book) as ([m|e] & -> & _); assumption.
  - destruct (add_birthday_cases args book) as (m & b & -> & Hb). auto.
  - destruct (birthdays_cases today args book) as (m & ->). assumption.
  - assumption.
Qed.

Lemma main_loop_book_ok (lines : list (date * string)) (book : AddressBook) :
  book_ok book = true ->
  book_ok (snd (main_loop lines book)) = true.
Proof.
  revert book. induction lines as [|[today line] rest IH]; intros book H;
    simpl; [assumption|].
  pose proof (main_step_book_ok today line book H) as Hs.
  destruct (main_step today line book) as [out book'| out | e book'];
    simpl; try assumption.
  specialize (IH book' Hs).
  now destruct (main_loop rest book') as [[outs e] b].
Qed.

(** X13.  Whatever lines a run of [main] reads, and however the run
    ends, the book at the end holds distinct names, every record under
    its own name, which is not blank, only phones that [Phone] accepts,
    and only birthdays that can be read. *)
Theorem main_book_ok (lines : list (date * string)) :
  book_ok (snd (main lines)) = true.
Proof.
  unfold main.
  pose proof (main_loop_book_ok lines [] eq_refl) as H.
  now destruct (main_loop lines []) as [[outs e] b].
Qed.

(** X14.  A line whose command is [all] ends the program: the loop
    calls [show_all] with two arguments, the function takes one, and the
    [TypeError] is caught by nothing.  The book is what it was. *)
Theorem main_step_all_crashes (today : date) (line : string)
        (args : list string) (book : AddressBook) :
  parse_input (strip line) = Ok ("all", args) ->
  main_step today line book
  = Uncaught (TypeError
                "show_all() takes 1 positional argument but 2 were given")
             book.
Proof.
  intros H. unfold main_step. rewrite H.
  destruct (String.eqb_spec (strip line) "") as [E|E];
    [rewrite E in H; discriminate H | reflexivity].
Qed.

Lemma main_step_all_crashes_witness :
  parse_input (strip " ALL ") = Ok ("all", [])
  /\ main_step today_ex " ALL " [("John", john)]
     = Uncaught (TypeError
                   "show_all() takes 1 positional argument but 2 were given")
                [("John", john)].
Proof.
  split; [reflexivity|].
  apply (main_step_all_crashes today_ex " ALL " [] [("John", john)]).
  reflexivity.
Defined.

(** ** Adding contacts and birthdays *)

Lemma dict_set_absent (k : string) (v : Record_) (d : AddressBook) :
  dict_get k d = None -> dict_set k v d = (d ++ [(k, v)])%list.
Proof.
  induction d as [|[k0 v0] d IH]; simpl; [reflexivity|].
  destruct (String.eqb_spec k0 k); [discriminate|].
  intros H. now rewrite IH.
Qed.

Lemma dict_set_set (k : string) (v v' : Record_) (d : AddressBook) :
  dict_set k v' (dict_set k v d) = dict_set k v' d.
Proof.
  induction d as [|[k0 v0] d IH]; simpl.
  - now rewrite String.eqb_refl.
  - destruct (String.eqb_spec k0 k) as [->|Hk]; simpl.
    + now rewrite String.eqb_refl.
    + destruct (String.eqb_spec k0 k); [contradiction|]. now rewrite IH.
Qed.

Lemma re_match_phone_not_empty (p : string) :
  re_match_phone p = true -> exists c p', p = String c p'.
Proof. destruct p as [|c p']; [discriminate | eauto]. Qed.

(** X15.  [add] with a new name that is not blank and a valid phone
    replies "Contact added." and puts the contact, with that one phone
    and no birthday, at the end of the book; the contacts that were
    there stay as they are.  Arguments after the phone are ignored. *)
Theorem add_contact_new (nm p : string) (rest : list string)
        (book : AddressBook) :
  dict_get nm book = None ->
  all_chars is_space nm = false ->
  re_match_phone p = true ->
  add_contact (nm :: p :: rest) book
  = (Ok "Contact added.",
     (book ++ [(nm, mkRecord (mkField nm) [mkField p] None)])%list).
Proof.
  intros Hg Hn Hp.
  destruct (re_match_phone_not_empty p Hp) as (c & p' & ->).
  unfold add_contact, input_error, add_contact_def, index,
    AddressBook_find, AddressBook_add_record, on_record,
    bind, lift, get, put, ret.
  simpl. rewrite Hg, Record_init_eq, Hn. simpl.
  rewrite Record_add_phone_eq, Hp.
  now rewrite dict_set_set, dict_set_absent.
Qed.

Lemma add_contact_new_witness :
  dict_get "Bob" [("John", john)] = None
  /\ all_chars is_space "Bob" = false
  /\ re_match_phone "5555555555" = true
  /\ add_contact ["Bob"; "5555555555"; "more"] [("John", john)]
     = (Ok "Contact added.",
        [("John", john);
         ("Bob", mkRecord (mkField "Bob") [mkField "5555555555"] None)]).
Proof.
  repeat (split; [reflexivity|]).
  apply (add_contact_new "Bob" "5555555555" ["more"] [("John", john)]);
    reflexivity.
Defined.

(** X16.  [add] with a name that the book has and a valid phone replies
    "Contact updated." and puts the phone at the end of the phones of
    that contact, also when the contact has that phone already; the
    birthday, the place of the contact in the book and the other
    contacts stay as they are. *)
Theorem add_contact_existing (nm p : string) (rest : list string)
        (r : Record_) (book : AddressBook) :
  dict_get nm book = Some r ->
  re_match_phone p = true ->
  exists book',
    add_contact (nm :: p :: rest) book = (Ok "Contact updated.", book')
    /\ dict_get nm book'
       = Some (mkRecord (name r) (phones r ++ [mkField p]) (birthday r))
    /\ (forall k, k <> nm -> dict_get k book' = dict_get k book)
    /\ map fst book' = map fst book.
Proof.
  intros Hg Hp.
  destruct (re_match_phone_not_empty p Hp) as (c & p' & ->).
  exists (dict_set nm (set_phones r (phones r ++ [mkField (String c p')])%list)
            book).
  split; [|split; [|split]].
  - unfold add_contact, input_error, add_contact_def, index,
      AddressBook_find, AddressBook_add_record, on_record,
      bind, lift, get, put, ret.
    simpl. rewrite Hg. simpl. now rewrite Record_add_phone_eq, Hp.
  - rewrite dict_get_set. now rewrite String.eqb_refl.
  - intros k Hk. rewrite dict_get_set.
    destruct (String.eqb_spec k nm); [contradiction | reflexivity].
  - rewrite dict_keys_set. now rewrite Hg.
Qed.

Lemma add_contact_existing_witness :
  dict_get "John" [("John", john)] = Some john
  /\ re_match_phone "1234567890" = true
  /\ exists book',
      add_contact ["John"; "1234567890"] [("John", john)]
      = (Ok "Contact updated.", book')
      /\ dict_get "John" book'
         = Some (mkRecord (mkField "John")
                   [mkField "1234567890"; mkField "1234567890"] None)
      /\ (forall k, k <> "John" ->
                    dict_get k book' = dict_get k [("John", john)])
      /\ map fst book' = ["John"].
Proof.
  repeat (split; [reflexivity|]).
  apply (add_contact_existing "John" "1234567890" [] john [("John", john)]);
    reflexivity.
Defined.

(** X17.  [add] with a name and nothing else, twice: the second call
    changes nothing.  The first call adds the contact when the name is
    new and not blank, and changes nothing otherwise. *)
Theorem add_contact_name_only_twice (nm : string) (book : AddressBook) :
  snd ((add_contact [nm] ;;; add_contact [nm]) book)
  = snd (add_contact [nm] book)
  /\ snd (add_contact [nm] book)
     = match dict_get nm book with
       | Some _ => book
       | None => if all_chars is_space nm then book
                 else (book ++ [(nm, mkRecord (mkField nm) [] None)])%list
       end.
Proof.
  assert (H1 : forall bk,
             add_contact [nm] bk
             = match dict_get nm bk with
               | Some _ => (Ok "Contact updated.", bk)
               | None =>
                   if all_chars is_space nm
                   then (Ok "Name cannot be empty.", bk)
                   else (Ok "Contact added.",
                         (bk ++ [(nm, mkRecord (mkField nm) [] None)])%list)
               end).
  { intros bk.
    unfold add_contact, input_error, add_contact_def, index,
      AddressBook_find, AddressBook_add_record, on_record,
      bind, lift, get, put, ret.
    simpl. destruct (dict_get nm bk) eqn:Hg; [reflexivity|].
    rewrite Record_init_eq.
    destruct (all_chars is_space nm); [reflexivity|]. simpl.
    now rewrite dict_set_absent. }
  split.
  - unfold bind at 1. rewrite (H1 book).
    destruct (dict_get nm book) eqn:Hg; simpl.
    + now rewrite (H1 book), Hg.
    + destruct (all_chars is_space nm) eqn:Hn; simpl.
      * now rewrite (H1 book), Hg.
      * rewrite H1. rewrite <- (dict_set_absent nm _ book Hg).
        rewrite dict_get_set, String.eqb_refl. reflexivity.
  - rewrite (H1 book). destruct (dict_get nm book); [reflexivity|].
    now destruct (all_chars is_space nm).
Qed.

(** X18.  [add-birthday] changes the book all at once or not at all:
    either the book stays as it is, or the reply is "Birthday added for
    contact ..." and the only change is that the contact, which had no
    birthday, now has the text given, which [Birthday] accepts. *)
Theorem add_birthday_all_or_nothing (args : list string)
        (book : AddressBook) :
  snd (add_birthday args book) = book
  \/ exists nm b r,
      args = [nm; b]
      /\ dict_get nm book = Some r /\ birthday r = None
      /\ Birthday_init b = Ok (mkField b)
      /\ add_birthday args book
         = (Ok ("Birthday added for contact " ++ nm ++ "."),
            dict_set nm (mkRecord (name r) (phones r) (Some (mkField b)))
              book).
Proof.
  unfold add_birthday, input_error, add_birthday_def,
    AddressBook_find, on_record, unpack2, bind, lift, get, ret.
  destruct args as [|nm [|b [|x rest]]]; try (left; reflexivity).
  simpl. destruct (dict_get nm book) as [r|] eqn:Hg; [|left; reflexivity].
  rewrite Record_add_birthday_eq.
  destruct (birthday r) eqn:Hb; [left; simpl; now apply dict_set_same|].
  destruct (strptime_dmy b) eqn:Hp; [|left; simpl; now apply dict_set_same].
  right. exists nm, b, r. repeat split; try assumption.
  unfold Birthday_init. now rewrite Hp.
Qed.

(** X19.  [add-birthday] for a contact without a birthday and with a
    text that [Birthday] accepts, and then [add-birthday] again for the
    same contact: the second reply is "Birthday is already set." and the
    contact keeps the first birthday. *)
Theorem add_birthday_then_again (nm b b2 : string) (r : Record_)
        (book : AddressBook) :
  dict_get nm book = Some r ->
  birthday r = None ->
  Birthday_init b = Ok (mkField b) ->
  (add_birthday [nm; b] ;;; add_birthday [nm; b2]) book
  = (Ok "Birthday is already set.",
     dict_set nm (mkRecord (name r) (phones r) (Some (mkField b))) book).
Proof.
  intros Hg Hb Hi.
  assert (Hp : exists d, strptime_dmy b = Ok d).
  { unfold Birthday_init in Hi.
    destruct (strptime_dmy b) as [d|[]]; try discriminate. eauto. }
  destruct Hp as [d Hp].
  assert (H1 : add_birthday [nm; b] book
               = (Ok ("Birthday added for contact " ++ nm ++ "."),
                  dict_set nm
                    (mkRecord (name r) (phones r) (Some (mkField b))) book)).
  { unfold add_birthday, input_error, add_birthday_def,
      AddressBook_find, on_record, unpack2, bind, lift, get, ret.
    simpl. rewrite Hg, Record_add_birthday_eq, Hb, Hp. reflexivity. }
  unfold bind at 1. rewrite H1.
  rewrite (add_birthday_already_set nm b2
             (mkRecord (name r) (phones r) (Some (mkField b))) (mkField b)).
  - reflexivity.
  - now rewrite dict_get_set, String.eqb_refl.
  - reflexivity.
Qed.

Lemma add_birthday_then_again_witness :
  dict_get "John" [("John", john)] = Some john
  /\ birthday john = None
  /\ Birthday_init "01.01.2000" = Ok (mkField "01.01.2000")
  /\ (add_birthday ["John"; "01.01.2000"] ;;;
      add_birthday ["John"; "02.02.2002"]) [("John", john)]
     = (Ok "Birthday is already set.",
        [("John", mkRecord (mkField "John") [mkField "1234567890"]
                    (Some (mkField "01.01.2000")))]).
Proof.
  repeat (split; [reflexivity|]).
  apply (add_birthday_then_again "John" "01.01.2000" "02.02.2002" john
           [("John", john)]); reflexivity.
Defined.

(** ** Showing the whole book *)

Lemma Record_str_eq (r : Record_) :
  Record_str r
  = if has_birthday r
    then Raise (AttributeError "'str' object has no attribute 'strftime'")
    else Ok (render_plain r).
Proof.
  unfold Record_str, has_birthday, render_plain, str_strftime.
  destruct (birthday r); simpl; [reflexivity|].
  now rewrite append_empty_r.
Qed.

Lemma map_result_Record_str (l : list Record_) :
  map_result Record_str l
  = if existsb has_birthday l
    then Raise (AttributeError "'str' object has no attribute 'strftime'")
    else Ok (map render_plain l).
Proof.
  induction l as [|r l IH]; simpl; [reflexivity|].
  rewrite Record_str_eq. destruct (has_birthday r); simpl; [reflexivity|].
  rewrite IH. now destruct (existsb has_birthday l).
Qed.

(** X20.  [show_all]: "No contacts saved." for the empty book; when no
    contact has a birthday, one line for each contact, in the order of
    the book, with the name and the phones; and as soon as one contact
    has a birthday, [AttributeError] and no lines at all. *)
Theorem show_all_spec (book : AddressBook) :
  show_all book
  = (match book with
     | [] => Ok "No contacts saved."
     | _ =>
         if existsb has_birthday (dict_values book)
         then Raise (AttributeError
                       "'str' object has no attribute 'strftime'")
         else Ok (join NL (map render_plain (dict_values book)))
     end, book).
Proof.
  unfold show_all, bind, get, ret, lift, AddressBook_str.
  destruct book as [|kr book]; [reflexivity|].
  rewrite map_result_Record_str.
  now destruct (existsb has_birthday (dict_values (kr :: book))).
Qed.

(** ** The query, once more *)

#[local] Arguments Z.mul : simpl never.
#[local] Arguments Z.add : simpl never.
#[local] Arguments Z.sub : simpl never.
#[local] Arguments Z.div : simpl never.
#[local] Arguments Z.modulo : simpl never.

Lemma candidates_exist_false (today : date) (book : AddressBook) :
  candidates_exist today book = false ->
  exists r b, In r (dict_values book) /\ birthday r = Some b
              /\ record_candidate today r = None.
Proof.
  unfold candidates_exist.
  induction (dict_values book) as [|r l IH]; simpl; [discriminate|].
  destruct (birthday r) as [b|] eqn:Hb.
  - destruct (record_candidate today r) eqn:Hc.
    + intros H. destruct (IH H) as (r' & b' & Hin & H').
      exists r', b'. auto.
    + intros _. exists r, b. auto.
  - intros H. destruct (IH H) as (r' & b' & Hin & H').
    exists r', b'. auto.
Qed.

Lemma get_upcoming_birthdays_ok (today : date) (book : AddressBook)
      (out : list entry) :
  fst (AddressBook_get_upcoming_birthdays today book) = Ok out ->
  candidates_exist today book = true /\ out = spec_upcoming today book.
Proof.
  rewrite get_upcoming_birthdays_fold. simpl. intros H.
  destruct (candidates_exist today book) eqn:Hc.
  - split; [reflexivity|].
    rewrite (fold_upcoming_spec today _ [] Hc) in H.
    now injection H as <-.
  - apply candidates_exist_false in Hc as (r & b & Hin & Hb & Hn).
    destruct (fold_upcoming_raises today _ r b [] Hin Hb Hn) as [msg Hf].
    rewrite Hf in H. discriminate.
Qed.

(** X21.  The query returns a list exactly when every birthday in the
    book has a candidate date; in every other case it raises. *)
Theorem get_upcoming_birthdays_returns_iff (today : date)
        (book : AddressBook) :
  (exists out, fst (AddressBook_get_upcoming_birthdays today book) = Ok out)
  <-> candidates_exist today book = true.
Proof.
  split.
  - intros [out H]. now apply get_upcoming_birthdays_ok in H.
  - intros H. exists (spec_upcoming today book).
    rewrite get_upcoming_birthdays_fold. simpl.
    now rewrite (fold_upcoming_spec today _ [] H).
Qed.

(** X22.  Every entry that the query returns names a contact of the
    book, and its date is the text of a date [g] that is no Saturday and
    no Sunday and is at most 9 days after [today]: the birthday is at
    most 7 days ahead and the greeting at most 2 days after it. *)
Theorem upcoming_entries_bounds (today : date) (book : AddressBook)
        (out : list entry) (e : entry) :
  fst (AddressBook_get_upcoming_birthdays today book) = Ok out ->
  In e out ->
  exists r g,
    In r (dict_values book)
    /\ entry_name e = value (name r)
    /\ entry_birthday e = strftime_dmy g
    /\ valid_date g = true
    /\ 0 <= weekday g <= 4
    /\ 0 <= toordinal g - toordinal today <= 9.
Proof.
  intros H Hin. apply get_upcoming_birthdays_ok in H as [_ ->].
  apply spec_upcoming_In in Hin as (r & c & Hr & Hc & Hw & ->).
  exists r, (spec_greeting c). cbn [entry_name entry_birthday].
  assert (Hv : valid_date c = true).
  { unfold record_candidate in Hc.
    destruct (birthday r); [|discriminate].
    destruct (strptime_dmy _); [|discriminate].
    now apply spec_candidate_valid in Hc. }
  destruct (spec_greeting_spec c Hv) as (Hg & Ho & Hwd).
  repeat split; try assumption; try lia.
  - rewrite Ho. destruct (weekday c =? 5); [lia|].
    destruct (weekday c =? 6); lia.
  - rewrite Ho. destruct (weekday c =? 5); [lia|].
    destruct (weekday c =? 6); lia.
Qed.

Lemma upcoming_entries_bounds_witness :
  fst (AddressBook_get_upcoming_birthdays today_ex book_ex)
  = Ok [mkEntry "Anna" "12.06.2024"; mkEntry "Bob" "17.06.2024"]
  /\ In (mkEntry "Bob" "17.06.2024")
        [mkEntry "Anna" "12.06.2024"; mkEntry "Bob" "17.06.2024"]
  /\ exists r g,
      In r (dict_values book_ex)
      /\ entry_name (mkEntry "Bob" "17.06.2024") = value (name r)
      /\ entry_birthday (mkEntry "Bob" "17.06.2024") = strftime_dmy g
      /\ valid_date g = true
      /\ 0 <= weekday g <= 4
      /\ 0 <= toordinal g - toordinal today_ex <= 9.
Proof.
  split; [reflexivity|]. split; [simpl; auto|].
  apply (upcoming_entries_bounds today_ex book_ex
           [mkEntry "Anna" "12.06.2024"; mkEntry "Bob" "17.06.2024"]);
    [reflexivity | simpl; auto].
Defined.

(** ** Writing a date and reading it back *)

Lemma code_digit_char (d : Z) : code (digit_char d) = 48 + d mod 10.
Proof.
  unfold code, digit_char.
  assert (H : 0 <= d mod 10 < 10) by (apply Z.mod_pos_bound; lia).
  rewrite nat_ascii_embedding by lia. lia.
Qed.

Lemma is_digit_digit_char (d : Z) : is_digit (digit_char d) = true.
Proof.
  unfold is_digit. rewrite code_digit_char.
  assert (H : 0 <= d mod 10 < 10) by (apply Z.mod_pos_bound; lia).
  apply andb_true_iff. split; apply Z.leb_le; lia.
Qed.

Lemma digit_val_digit_char (d : Z) : digit_val (digit_char d) = d mod 10.
Proof. unfold digit_val. rewrite code_digit_char. lia. Qed.

Lemma two_digit_pad (n : Z) :
  0 <= n < 100 -> two_digit (digit_char (n / 10)) (digit_char n) = n.
Proof.
  intros H. unfold two_digit. rewrite !digit_val_digit_char.
  Z.div_mod_to_equations. lia.
Qed.

Lemma four_digit_pad (n : Z) :
  0 <= n < 10000 ->
  100 * two_digit (digit_char (n / 1000)) (digit_char (n / 100))
  + two_digit (digit_char (n / 10)) (digit_char n) = n.
Proof.
  intros H. unfold two_digit. rewrite !digit_val_digit_char.
  Z.div_mod_to_equations. lia.
Qed.

Lemma valid_date_ranges (d : date) :
  valid_date d = true ->
  0 <= day d < 100 /\ 0 <= month d < 100 /\ 0 <= year d < 10000.
Proof.
  unfold valid_date, valid_ymd. intros H.
  pose proof (days_in_month_bounds (year d) (month d)).
  b2p. lia.
Qed.

(** From the year 1000 on the year is written with four digits. *)
Lemma show_year_four_digits (y : Z) : 1000 <= y -> show_year y = pad4 y.
Proof.
  intros H. unfold show_year.
  destruct (Z.ltb_spec y 10); [lia|]. destruct (Z.ltb_spec y 100); [lia|].
  destruct (Z.ltb_spec y 1000); [lia | reflexivity].
Qed.

Lemma strftime_dmy_padded (d : date) :
  valid_date d = true -> 1000 <= year d ->
  strftime_dmy d = pad2 (day d) ++ "." ++ pad2 (month d) ++ "." ++ pad4 (year d).
Proof.
  intros Hv Hy. destruct (valid_date_ranges d Hv) as (_ & _ & Hy').
  unfold strftime_dmy. rewrite show_year_four_digits by lia. reflexivity.
Qed.

Lemma strftime_dmy_shape (d : date) :
  valid_date d = true -> 1000 <= year d ->
  is_dd_mm_yyyy (strftime_dmy d) = true.
Proof.
  intros Hv Hy. destruct (valid_date_ranges d Hv) as (Hd & Hm & Hy').
  rewrite strftime_dmy_padded by assumption.
  unfold pad4, pad2, is_dd_mm_yyyy. simpl.
  rewrite !is_digit_digit_char. simpl.
  rewrite four_digit_pad, two_digit_pad, two_digit_pad by assumption.
  exact Hv.
Qed.

Lemma strptime_strftime (d : date) :
  valid_date d = true -> 1000 <= year d ->
  strptime_dmy (strftime_dmy d) = Ok d.
Proof.
  intros Hv Hy1. destruct (valid_date_ranges d Hv) as (Hd & Hm & Hy).
  rewrite strftime_dmy_padded by assumption.
  apply strptime_dmy_spec. split; [|assumption].
  exists (pad2 (day d)), (pad2 (month d)), (pad4 (year d)).
  split; [now rewrite append_empty_r|].
  unfold valid_date, valid_ymd in Hv. b2p.
  pose proof (days_in_month_bounds (year d) (month d)).
  split; [|split].
  - rewrite <- (two_digit_pad (day d)) at 2 by assumption.
    unfold pad2. constructor; try apply is_digit_digit_char.
    rewrite two_digit_pad by assumption. lia.
  - rewrite <- (two_digit_pad (month d)) at 2 by assumption.
    unfold pad2. constructor; try apply is_digit_digit_char.
    rewrite two_digit_pad by assumption. lia.
  - rewrite <- (four_digit_pad (year d)) at 2 by assumption.
    unfold pad4, pad2. constructor; apply is_digit_digit_char.
Qed.

(** The days before a year grow with the year. *)
Lemma days_before_year_mono (y y' : Z) :
  y <= y' -> days_before_year y <= days_before_year y'.
Proof.
  intros H. unfold days_before_year. Z.div_mod_to_equations. lia.
Qed.

(** The ordinal of a date lies within its year. *)
Lemma toordinal_in_year (c : date) :
  valid_date c = true ->
  days_before_year (year c) < toordinal c <= days_before_year (year c + 1).
Proof.
  destruct c as [y m d]. unfold valid_date, valid_ymd, toordinal.
  cbn [year month day]. intros H. b2p.
  unfold days_before_year, days_before_month, days_in_month, is_leap in *.
  assert (Hm : m = 1 \/ m = 2 \/ m = 3 \/ m = 4 \/ m = 5 \/ m = 6 \/ m = 7
               \/ m = 8 \/ m = 9 \/ m = 10 \/ m = 11 \/ m = 12) by lia.
  replace (y + 1 - 1) with y by lia.
  repeat (destruct Hm as [-> | Hm]); try subst m; cbn in *;
    zbool; Z.div_mod_to_equations; lia.
Qed.

(** A later date is not in an earlier year. *)
Lemma year_mono (a b : date) :
  valid_date a = true -> valid_date b = true ->
  toordinal a <= toordinal b -> year a <= year b.
Proof.
  intros Ha Hb H.
  destruct (Z.le_gt_cases (year a) (year b)) as [Hle|Hgt]; [assumption|].
  pose proof (toordinal_in_year a Ha) as [Ha1 _].
  pose proof (toordinal_in_year b Hb) as [_ Hb2].
  pose proof (days_before_year_mono (year b + 1) (year a)). lia.
Qed.

Lemma spec_candidate_year (today bd c : date) :
  spec_candidate today bd = Some c -> year today <= year c.
Proof.
  unfold spec_candidate.
  destruct (valid_date (mkDate (year today) _ _)); [|discriminate].
  destruct (date_lt _ today).
  - destruct (valid_date (mkDate (year today + 1) _ _)); [|discriminate].
    intros [= <-]. simpl. lia.
  - intros [= <-]. simpl. lia.
Qed.

(** X23.  When the year of [today] is 1000 or later, the date of every
    entry that the query returns is written as two digits, a dot, two
    digits, a dot and four digits, it reads back as the greeting date,
    and [Birthday] accepts it.  (Before the year 1000 the year is
    written with fewer than four digits.) *)
Theorem upcoming_entries_text (today : date) (book : AddressBook)
        (out : list entry) (e : entry) :
  1000 <= year today ->
  fst (AddressBook_get_upcoming_birthdays today book) = Ok out ->
  In e out ->
  is_dd_mm_yyyy (entry_birthday e) = true
  /\ Birthday_init (entry_birthday e) = Ok (mkField (entry_birthday e))
  /\ exists g, strptime_dmy (entry_birthday e) = Ok g
               /\ entry_birthday e = strftime_dmy g.
Proof.
  intros Hy H Hin. apply get_upcoming_birthdays_ok in H as [_ ->].
  apply spec_upcoming_In in Hin as (r & c & Hr & Hc & Hw & ->).
  cbn [entry_birthday].
  assert (Hv : valid_date c = true /\ year today <= year c).
  { unfold record_candidate in Hc.
    destruct (birthday r); [|discriminate].
    destruct (strptime_dmy _); [|discriminate].
    split; [now apply spec_candidate_valid in Hc
           | now apply spec_candidate_year in Hc]. }
  destruct Hv as [Hv Hyc].
  destruct (spec_greeting_spec c Hv) as (Hg & Ho & _).
  assert (Hyg : 1000 <= year (spec_greeting c)).
  { assert (year c <= year (spec_greeting c)); [|lia].
    apply year_mono; try assumption. rewrite Ho.
    destruct (weekday c =? 5); [lia|]. destruct (weekday c =? 6); lia. }
  pose proof (strftime_dmy_shape _ Hg Hyg) as Hs.
  split; [assumption|]. split; [now apply Birthday_init_dd_mm_yyyy|].
  exists (spec_greeting c). split; [now apply strptime_strftime | reflexivity].
Qed.

Lemma upcoming_entries_text_witness :
  1000 <= year today_ex
  /\ fst (AddressBook_get_upcoming_birthdays today_ex book_ex)
     = Ok [mkEntry "Anna" "12.06.2024"; mkEntry "Bob" "17.06.2024"]
  /\ In (mkEntry "Bob" "17.06.2024")
        [mkEntry "Anna" "12.06.2024"; mkEntry "Bob" "17.06.2024"]
  /\ is_dd_mm_yyyy "17.06.2024" = true
  /\ Birthday_init "17.06.2024" = Ok (mkField "17.06.2024")
  /\ exists g, strptime_dmy "17.06.2024" = Ok g
               /\ "17.06.2024" = strftime_dmy g.
Proof.
  split; [simpl; lia|]. split; [reflexivity|]. split; [simpl; auto|].
  apply (upcoming_entries_text today_ex book_ex
           [mkEntry "Anna" "12.06.2024"; mkEntry "Bob" "17.06.2024"]
           (mkEntry "Bob" "17.06.2024"));
    [simpl; lia | reflexivity | simpl; auto].
Defined.

(** Before the year 1000 the text of a date has a shorter year. *)
Example strftime_year_999 :
  strftime_dmy (mkDate 999 6 12) = "12.06.999"
  /\ is_dd_mm_yyyy (strftime_dmy (mkDate 999 6 12)) = false.
Proof. split; reflexivity. Qed.

Lemma book_ok_birthdays (book : AddressBook) (r : Record_) (b : Field) :
  book_ok book = true -> In r (dict_values book) -> birthday r = Some b ->
  exists bd, strptime_dmy (value b) = Ok bd.
Proof.
  unfold book_ok, dict_values. intros H Hin Hb.
  apply andb_true_iff in H as [_ H]. rewrite forallb_forall in H.
  apply in_map_iff in Hin as ([k r'] & <- & Hin). simpl in Hb.
  specialize (H _ Hin). unfold record_ok in H. simpl in H.
  apply andb_true_iff in H as [_ H]. rewrite Hb in H.
  destruct (strptime_dmy (value b)); [eauto | discriminate].
Qed.

(** X24.  On a book whose birthdays can be read, as every book that the
    program builds is, the query returns a list whenever no birthday is
    on 29 February and the year of [today] is between 1 and 9998. *)
Theorem get_upcoming_birthdays_returns (today : date) (book : AddressBook) :
  book_ok book = true ->
  1 <= year today <= 9998 ->
  (forall r b bd, In r (dict_values book) -> birthday r = Some b ->
                  strptime_dmy (value b) = Ok bd ->
                  ~ (month bd = 2 /\ day bd = 29)) ->
  AddressBook_get_upcoming_birthdays today book
  = (Ok (spec_upcoming today book), book).
Proof.
  intros Hok Hy Hfeb. rewrite get_upcoming_birthdays_fold.
  unfold spec_upcoming. rewrite (fold_upcoming_spec today _ []); [reflexivity|].
  apply candidates_exist_no_feb29; [assumption|].
  intros r b Hin Hb.
  destruct (book_ok_birthdays book r b Hok Hin Hb) as [bd Hp].
  exists bd. split; [assumption | now apply (Hfeb r b bd)].
Qed.

Lemma get_upcoming_birthdays_returns_witness :
  book_ok book_ex = true
  /\ 1 <= year today_ex <= 9998
  /\ AddressBook_get_upcoming_birthdays today_ex book_ex
     = (Ok [mkEntry "Anna" "12.06.2024"; mkEntry "Bob" "17.06.2024"], book_ex).
Proof.
  split; [reflexivity|]. split; [simpl; lia|].
  refine (get_upcoming_birthdays_returns today_ex book_ex eq_refl _ _).
  - simpl. lia.
  - intros r b bd Hin Hb Hp [Hm Hd]. simpl in Hin.
    destruct Hin as [<- | [<- | [<- | []]]]; simpl in Hb;
      injection Hb as <-; vm_compute in Hp; injection Hp as <-;
      discriminate Hm.
Defined.

(** ** How a turn of the loop can end the program *)

Lemma all_chars_lstrip (s : string) :
  all_chars is_space (lstrip s) = all_chars is_space s.
Proof.
  induction s as [|c s IH]; simpl; [reflexivity|].
  destruct (is_space c) eqn:Hc; simpl; [exact IH | now rewrite Hc].
Qed.

Lemma all_chars_strip (s : string) :
  all_chars is_space (strip s) = all_chars is_space s.
Proof.
  unfold strip.
  rewrite all_chars_rev_string, all_chars_lstrip, all_chars_rev_string,
    all_chars_lstrip.
  simpl. now rewrite !andb_true_r.
Qed.

Lemma split_ws_not_empty (cur s : string) :
  cur <> "" \/ all_chars is_space s = false -> split_ws cur s <> [].
Proof.
  revert cur. induction s as [|c s IH]; intros cur H; simpl.
  - destruct cur; [destruct H; [contradiction | discriminate] | discriminate].
  - destruct (is_space c) eqn:Hc.
    + destruct cur; [|discriminate].
      apply IH. right. destruct H as [H|H]; [contradiction|].
      simpl in H. now rewrite Hc in H.
    + apply IH. left. discriminate.
Qed.

Lemma parse_input_returns (line : string) :
  String.eqb (strip line) "" = false ->
  exists cmd args, parse_input (strip line) = Ok (cmd, args).
Proof.
  rewrite strip_eqb. intros H. unfold parse_input.
  destruct (split (strip (strip line))) as [|c l] eqn:Hs; [|eauto].
  exfalso. revert Hs. apply split_ws_not_empty. right.
  now rewrite !all_chars_strip.
Qed.

(** X25.  A turn of the loop lets an exception out in two cases only:
    the command is [all], whose call is a [TypeError], or the command
    is [birthday], whose function raises [AttributeError].  The book is
    then what it was before the turn. *)
Theorem main_step_uncaught (today : date) (line : string)
        (book book' : AddressBook) (e : exn) :
  main_step today line book = Uncaught e book' ->
  book' = book
  /\ exists args,
      (parse_input (strip line) = Ok ("all", args)
       /\ e = TypeError
                "show_all() takes 1 positional argument but 2 were given")
      \/ (parse_input (strip line) = Ok ("birthday", args)
          /\ e = AttributeError "'str' object has no attribute 'strftime'").
Proof.
  unfold main_step.
  destruct (String.eqb (strip line) "") eqn:Hs; [discriminate|].
  destruct (parse_input_returns line Hs) as (command & args & ->).
  destruct (_ || _); [discriminate|].
  destruct (String.eqb command "hello"); [discriminate|].
  unfold commands, lookup.
  destruct (String.eqb_spec "add" command) as [<-|].
  { destruct (add_contact_cases args book) as (m & b & -> & _).
    discriminate. }
  destruct (String.eqb_spec "change" command) as [<-|].
  { destruct (change_contact_cases args book) as (m & b & -> & _).
    discriminate. }
  destruct (String.eqb_spec "phone" command) as [<-|].
  { destruct (show_phone_cases args book) as (m & ->). discriminate. }
  destruct (String.eqb_spec "all" command) as [<-|].
  { unfold raise. intros [= <- <-]. split; [reflexivity|].
    exists args. now left. }
  destruct (String.eqb_spec "birthday" command) as [<-|].
  { destruct (show_birthday_cases args book) as ([m|e'] & -> & He);
      [discriminate|].
    intros [= <- <-]. split; [reflexivity|]. exists args. now right. }
  destruct (String.eqb_spec "add-birthday" command) as [<-|].
  { destruct (add_birthday_cases args book) as (m & b & -> & _).
    discriminate. }
  destruct (String.eqb_spec "birthdays" command) as [<-|].
  { destruct (birthdays_cases today args book) as (m & ->). discriminate. }
  discriminate.
Qed.

Lemma main_step_uncaught_witness :
  main_step today_ex "birthday Anna" book_ex
  = Uncaught (AttributeError "'str' object has no attribute 'strftime'")
      book_ex
  /\ exists args,
      (parse_input (strip "birthday Anna") = Ok ("all", args)
       /\ AttributeError "'str' object has no attribute 'strftime'"
          = TypeError
              "show_all() takes 1 positional argument but 2 were given")
      \/ (parse_input (strip "birthday Anna") = Ok ("birthday", args)
          /\ AttributeError "'str' object has no attribute 'strftime'"
             = AttributeError "'str' object has no attribute 'strftime'").
Proof.
  split; [vm_compute; reflexivity|].
  apply (main_step_uncaught today_ex "birthday Anna" book_ex book_ex
           (AttributeError "'str' object has no attribute 'strftime'")).
  vm_compute. reflexivity.
Defined.

(** ** What [change] can touch *)

Lemma remove_first_length (phone : string) (l : list Field) :
  (List.length (remove_first phone l) <= List.length l)%nat
  /\ (In phone (map value l) ->
      S (List.length (remove_first phone l)) = List.length l).
Proof.
  induction l as [|p l [IH1 IH2]]; simpl; [split; [lia | contradiction]|].
  destruct (String.eqb_spec (value p) phone) as [E|E]; simpl.
  - split; [lia | reflexivity].
  - split; [lia|]. intros [H|H]; [contradiction|]. now rewrite IH2.
Qed.

(** X26.  [change] touches nothing but the phones of the contact named
    by its first argument: the names of the book and their order, and
    the name and the birthday of every contact, stay as they are, every
    other contact stays as it is, and the contact named never gets more
    phones than it had.  This holds for every reply, errors included. *)
Theorem change_contact_frame (args : list string) (book : AddressBook)
        (k : string) :
  let book' := snd (change_contact args book) in
  map fst book' = map fst book
  /\ match dict_get k book, dict_get k book' with
     | Some r, Some r' =>
         name r' = name r /\ birthday r' = birthday r
         /\ (List.length (phones r') <= List.length (phones r))%nat
         /\ (hd_error args <> Some k -> r' = r)
     | None, None => True
     | _, _ => False
     end.
Proof.
  assert (Hsame : map fst book = map fst book
                  /\ match dict_get k book, dict_get k book with
                     | Some r, Some r' =>
                         name r' = name r /\ birthday r' = birthday r
                         /\ (List.length (phones r')
                             <= List.length (phones r))%nat
                         /\ (hd_error args <> Some k -> r' = r)
                     | None, None => True
                     | _, _ => False
                     end).
  { split; [reflexivity|]. destruct (dict_get k book); auto. }
  unfold change_contact, input_error, change_contact_def,
    AddressBook_find, on_record, unpack3, bind, lift, get, ret.
  destruct args as [|nm [|old_phone [|new_phone [|x rest]]]];
    try exact Hsame.
  cbn [hd_error] in *. simpl.
  destruct (dict_get nm book) as [r|] eqn:Hg; [|exact Hsame].
  assert (Hset : forall ps,
             (List.length ps <= List.length (phones r))%nat ->
             map fst (dict_set nm (set_phones r ps) book) = map fst book
             /\ match dict_get k book,
                      dict_get k (dict_set nm (set_phones r ps) book) with
                | Some r0, Some r' =>
                    name r' = name r0 /\ birthday r' = birthday r0
                    /\ (List.length (phones r')
                        <= List.length (phones r0))%nat
                    /\ (Some nm <> Some k -> r' = r0)
                | None, None => True
                | _, _ => False
                end).
  { intros ps Hps. split; [now rewrite dict_keys_set, Hg|].
    rewrite dict_get_set. destruct (String.eqb_spec k nm) as [->|Hk].
    - rewrite Hg. simpl. repeat split; auto. intros H. congruence.
    - destruct (dict_get k book); auto. }
  rewrite Record_edit_phone_eq.
  destruct (find _ (phones r)) as [p|] eqn:Hf.
  - assert (Hin : In old_phone (map value (phones r))).
    { apply find_some in Hf as [Hin Hv]. apply String.eqb_eq in Hv.
      subst old_phone. now apply in_map. }
    destruct (remove_first_length old_phone (phones r)) as [Hle Heq].
    specialize (Heq Hin).
    destruct (re_match_phone new_phone); simpl; apply Hset.
    + rewrite length_app. simpl. lia.
    + assumption.
  - simpl. rewrite dict_set_same by assumption. exact Hsame.
Qed.
